(** * ogr2osm: the OSM geometry model of [osm_geometries.py]

    A shallow embedding of the classes [OsmId], [OsmBoundary], [OsmGeometry],
    [OsmNode], [OsmWay] and [OsmRelation], and the properties of the
    identifier counter, the bounding box, the tag store and the XML
    serialisation that the specification states about them.

    Conventions of the embedding:
    - a Python [int] is a [Z]; a Python [float] is an IEEE-754 binary64 value,
      a [spec_float] of the Standard Library;
    - a Python [dict] is an association list in insertion order;
    - a Python object reference is an address into a store of objects, and
      [==] on objects (no class here defines [__eq__]) compares addresses;
    - the class attributes of [OsmId] are a state that is passed explicitly;
    - an exception is the [Raise] case of a result type;
    - what lxml accepts as a name or a text is fixed where it is plain and is
      a parameter of the model ([lxml]) elsewhere, and so is what the
      interpreter does with text beyond ASCII ([python]); running out of
      memory is not modelled. *)

From Stdlib Require Import ZArith List String Ascii Bool Lia.
From Stdlib Require Import SpecFloat DecimalString ListSet FinFun.
From Stdlib Require DecimalPos DecimalFacts.
Import ListNotations.

Local Open Scope string_scope.
Local Open Scope Z_scope.

(** ** Exceptions and results *)

Inductive exn : Type :=
| ValueError      (* a malformed [%] format; a name or text lxml refuses; [int] *)
| IndexError      (* [l[0]] on an empty list *)
| AttributeError. (* a reference that names no object of the store *)

Inductive result (A : Type) : Type :=
| Ok (a : A)
| Raise (e : exn).

Arguments Ok {A} a.
Arguments Raise {A} e.

Definition bind {A B : Type} (r : result A) (k : A -> result B) : result B :=
  match r with
  | Ok a => k a
  | Raise e => Raise e
  end.

Notation "x <- r ;; k" := (bind r (fun x => k))
  (at level 61, r at next level, right associativity).

(** ** Python strings *)

Definition float := spec_float.

Fixpoint char_in (c : ascii) (chars : string) : bool :=
  match chars with
  | EmptyString => false
  | String d chars' => Ascii.eqb c d || char_in c chars'
  end.

(** [s.lstrip(chars)] *)
Fixpoint lstrip (chars s : string) : string :=
  match s with
  | EmptyString => EmptyString
  | String c s' => if char_in c chars then lstrip chars s' else s
  end.

(** [s.rstrip(chars)] *)
Fixpoint rstrip (chars s : string) : string :=
  match s with
  | EmptyString => EmptyString
  | String c s' =>
      match rstrip chars s' with
      | EmptyString => if char_in c chars then EmptyString else String c EmptyString
      | t => String c t
      end
  end.

(** [s.strip(chars)]: the characters of [chars] are removed at both ends. *)
Definition strip (chars s : string) : string := rstrip chars (lstrip chars s).

(** [sep.join(l)] *)
Fixpoint join (sep : string) (l : list string) : string :=
  match l with
  | [] => EmptyString
  | [s] => s
  | s :: l' => s ++ sep ++ join sep l'
  end.

(** [all(c in chars for c in s)] *)
Fixpoint all_in (chars s : string) : bool :=
  match s with
  | EmptyString => true
  | String c s' => char_in c chars && all_in chars s'
  end.

Definition digits : string := "0123456789".

(** ['%d' % z] *)
Definition format_d (z : Z) : string := NilZero.string_of_int (Z.to_int z).

(** ** ['%.<prec>f' % x]

    CPython prints the exact value of the binary64 number, rounded to [prec]
    decimals, ties to even.  A finite [spec_float] is [m * 2^e], so the
    rounded multiple of [10^-prec] is computed exactly in [Z]. *)

Definition round_half_even (num den : Z) : Z :=
  let q := num / den in
  match (2 * (num mod den)) ?= den with
  | Lt => q
  | Eq => if Z.even q then q else q + 1
  | Gt => q + 1
  end.

(** The integer nearest to [m * 2^e * 10^prec]. *)
Definition scaled (m : positive) (e : Z) (prec : nat) : Z :=
  let p10 := 10 ^ Z.of_nat prec in
  if 0 <=? e then Z.pos m * 2 ^ e * p10
  else round_half_even (Z.pos m * p10) (2 ^ (- e)).

Definition digit_char (d : Z) : ascii := ascii_of_nat (48 + Z.to_nat d).

(** The last [prec] decimal digits of [r], zero-padded on the left. *)
Fixpoint frac_digits (prec : nat) (r : Z) : string :=
  match prec with
  | O => EmptyString
  | S p => frac_digits p (r / 10) ++ String (digit_char (r mod 10)) EmptyString
  end.

(** [n * 10^-prec] in fixed notation; no point is printed at precision 0. *)
Definition fixed_digits (n : Z) (prec : nat) : string :=
  let p10 := 10 ^ Z.of_nat prec in
  format_d (n / p10) ++
  match prec with
  | O => EmptyString
  | S _ => "." ++ frac_digits prec (n mod p10)
  end.

Definition sign_str (s : bool) : string := if s then "-" else EmptyString.

Definition format_f (prec : nat) (x : float) : string :=
  match x with
  | S754_nan => "nan"
  | S754_infinity s => sign_str s ++ "inf"
  | S754_zero s => sign_str s ++ fixed_digits 0 prec
  | S754_finite s m e => sign_str s ++ fixed_digits (scaled m e prec) prec
  end.

(** The greatest precision a format can name: [INT_MAX] of CPython. *)
Definition max_precision : Z := 2147483647.

(** [(('%%.%df' % significant_digits) % value).strip('0')]: the inner [%]
    builds the format ['%.<n>f'].  For a negative [n] the outer [%] meets
    ['-'] where it expects the conversion, for [n] above [max_precision] it
    finds the precision too big; both raise [ValueError]. *)
Definition format_stripped (significant_digits : Z) (value : float) : result string :=
  if (significant_digits <? 0) || (max_precision <? significant_digits)
  then Raise ValueError
  else Ok (strip "0" (format_f (Z.to_nat significant_digits) value)).

(** ** Python floats: comparison, [min] and [max] *)

(** [min(a, b)] keeps [a] unless [b < a]; [max(a, b)] keeps [a] unless
    [b > a].  Every comparison with a NaN is false. *)
Definition py_min (a b : float) : float := if SFltb b a then b else a.
Definition py_max (a b : float) : float := if SFltb a b then b else a.

Definition is_nan (x : float) : bool :=
  match x with S754_nan => true | _ => false end.

Definition is_finite (x : float) : bool :=
  match x with S754_zero _ | S754_finite _ _ _ => true | _ => false end.

(** A value of the binary64 format: 53 bits of precision, [emax = 1024]. *)
Definition binary64 (x : float) : bool := valid_binary 53 1024 x.

(** Some binary64 values. *)
Definition f_zero : float := S754_zero false.               (* 0.0 *)
Definition f_one : float := S754_finite false 4503599627370496 (-52).   (* 1.0 *)
Definition f_two : float := S754_finite false 4503599627370496 (-51).   (* 2.0 *)
Definition f_three : float := S754_finite false 6755399441055744 (-51). (* 3.0 *)
Definition f_four : float := S754_finite false 4503599627370496 (-50).  (* 4.0 *)
Definition f_five : float := S754_finite false 5629499534213120 (-50).  (* 5.0 *)
Definition f_ten : float := S754_finite false 5629499534213120 (-49).   (* 10.0 *)
Definition f_half : float := S754_finite false 4503599627370496 (-53).  (* 0.5 *)
Definition f_52_5 : float := S754_finite false 7388718138654720 (-47).  (* 52.5 *)
Definition f_52 : float := S754_finite false 7318349394477056 (-47).    (* 52.0 *)
Definition f_nan : float := S754_nan.
Definition f_inf : float := S754_infinity false.
Definition f_neg_inf : float := S754_infinity true.

(** ** Python dictionaries, in insertion order *)

Definition dict (V : Type) : Type := list (string * V).

Fixpoint dict_get {V : Type} (d : dict V) (k : string) : option V :=
  match d with
  | [] => None
  | (k', v) :: d' => if String.eqb k k' then Some v else dict_get d' k
  end.

(** [d[k] = v]: an existing key keeps its place, a new key goes last. *)
Fixpoint dict_setitem {V : Type} (d : dict V) (k : string) (v : V) : dict V :=
  match d with
  | [] => [(k, v)]
  | (k', v') :: d' =>
      if String.eqb k k' then (k', v) :: d' else (k', v') :: dict_setitem d' k v
  end.

(** [d.update(other)] *)
Definition dict_update {V : Type} (d other : dict V) : dict V :=
  fold_left (fun acc kv => dict_setitem acc (fst kv) (snd kv)) other d.

Definition keys {V : Type} (d : dict V) : list string := map fst d.

(** ** lxml elements

    [etree.Element(tag, attrib)] with the children later appended to it, and
    [etree.tostring(e, encoding='unicode')]. *)

#[warnings="-register-all"]
Inductive element : Type :=
| Element (tag : string) (attrib : dict string) (children : list element).

Definition element_tag (e : element) : string :=
  match e with Element t _ _ => t end.
Definition element_attrib (e : element) : dict string :=
  match e with Element _ a _ => a end.
Definition element_children (e : element) : list element :=
  match e with Element _ _ c => c end.

(** [xmlobject.append(child)] *)
Definition append (e child : element) : element :=
  match e with Element t a c => Element t a (c ++ [child]) end.

(** *** The checks of [etree.Element]

    lxml raises [ValueError] for a tag or attribute name that is no XML name
    and for a string that is not XML compatible.  What it does is fixed here
    where it is plain: a text of printable ASCII characters, tabs and line ends
    is accepted and a text with another control character is refused; a name
    of ASCII letters, digits, underscore, hyphen and full stop that starts with
    a letter or an underscore is accepted and an empty name or one with white
    space or a control character is refused.  For every other name and text
    (characters beyond ASCII, colons, namespaces in braces, ...) the decision
    of lxml is a parameter of the model. *)

Record lxml : Type := mk_lxml {
  accepts_name : string -> bool;
  accepts_text : string -> bool
}.

Fixpoint forall_chars (p : ascii -> bool) (s : string) : bool :=
  match s with
  | EmptyString => true
  | String c s' => p c && forall_chars p s'
  end.

Fixpoint exists_chars (p : ascii -> bool) (s : string) : bool :=
  match s with
  | EmptyString => false
  | String c s' => p c || exists_chars p s'
  end.

Definition is_line_space (c : ascii) : bool :=
  Ascii.eqb c "009"%char || Ascii.eqb c "010"%char || Ascii.eqb c "013"%char.

(** The control characters no XML text can hold: below 32, but for tab,
    line feed and carriage return. *)
Definition is_control (c : ascii) : bool :=
  Nat.ltb (nat_of_ascii c) 32 && negb (is_line_space c).

(** Printable ASCII, tab, line feed, carriage return. *)
Definition is_plain (c : ascii) : bool :=
  (Nat.leb 32 (nat_of_ascii c) && Nat.leb (nat_of_ascii c) 126) || is_line_space c.

Definition valid_text (lx : lxml) (s : string) : bool :=
  if exists_chars is_control s then false
  else if forall_chars is_plain s then true
  else accepts_text lx s.

Definition name_start_chars : string :=
  "_abcdefghijklmnopqrstuvwxyzABCDEFGHIJKLMNOPQRSTUVWXYZ".

Definition name_chars : string := name_start_chars ++ "0123456789-.".

Definition simple_name (s : string) : bool :=
  match s with
  | EmptyString => false
  | String c s' => char_in c name_start_chars && all_in name_chars s'
  end.

Definition valid_name (lx : lxml) (s : string) : bool :=
  if simple_name s then true
  else if match s with EmptyString => true | _ => false end
          || exists_chars (fun c => is_control c || is_line_space c
                                    || Ascii.eqb c " "%char) s
       then false
  else accepts_name lx s.

(** [etree.Element(tag, attrib)]: the element without children, or
    [ValueError] when lxml refuses the tag, an attribute name or an attribute
    value. *)
Definition etree_Element (lx : lxml) (tag : string) (attrib : dict string)
    : result element :=
  if valid_name lx tag
     && forallb (fun kv => valid_name lx (fst kv) && valid_text lx (snd kv)) attrib
  then Ok (Element tag attrib [])
  else Raise ValueError.

(** *** [etree.tostring] *)

Definition dquote : string := String "034"%char EmptyString.

Definition escape_char (c : ascii) : string :=
  if Ascii.eqb c "&"%char then "&amp;"
  else if Ascii.eqb c "<"%char then "&lt;"
  else if Ascii.eqb c ">"%char then "&gt;"
  else if Ascii.eqb c "034"%char then "&quot;"
  else if Ascii.eqb c "009"%char then "&#9;"
  else if Ascii.eqb c "010"%char then "&#10;"
  else if Ascii.eqb c "013"%char then "&#13;"
  else String c EmptyString.

Fixpoint escape (s : string) : string :=
  match s with
  | EmptyString => EmptyString
  | String c s' => escape_char c ++ escape s'
  end.

Definition attr_text (kv : string * string) : string :=
  " " ++ fst kv ++ "=" ++ dquote ++ escape (snd kv) ++ dquote.

Fixpoint tostring (e : element) : string :=
  match e with
  | Element tag attrib children =>
      "<" ++ tag ++ String.concat EmptyString (map attr_text attrib) ++
      match children with
      | [] => "/>"
      | _ => ">" ++ String.concat EmptyString (map tostring children) ++
             "</" ++ tag ++ ">"
      end
  end.

(** ** [class OsmId]: the class attributes are the counter state

    [load_id] and [save_id], which copy the counter from and to a file, come
    after the other classes, with the files. *)

Module OsmId.

Record t : Type := mk {
  element_id_counter : Z;
  element_id_counter_incr : Z
}.

(** The values of the class body. *)
Definition initial : t :=
  {| element_id_counter := 0; element_id_counter_incr := -1 |}.

Definition set_id (start_id : Z) (is_positive : bool) (st : t) : t :=
  let st := {| element_id_counter := start_id;
               element_id_counter_incr := element_id_counter_incr st |} in
  if is_positive
  then {| element_id_counter := element_id_counter st;
          element_id_counter_incr := 1 |}
  else st.

End OsmId.

(** ** [class OsmBoundary] *)

Module OsmBoundary.

Record t : Type := mk {
  is_valid : bool;
  minlon : float;
  maxlon : float;
  minlat : float;
  maxlat : float
}.

Definition init : t :=
  {| is_valid := false; minlon := f_zero; maxlon := f_zero;
     minlat := f_zero; maxlat := f_zero |}.

Definition add_envelope (self : t) (minx maxx miny maxy : float) : t :=
  if is_valid self then
    {| is_valid := is_valid self;
       minlon := py_min (minlon self) minx;
       maxlon := py_max (maxlon self) maxx;
       minlat := py_min (minlat self) miny;
       maxlat := py_max (maxlat self) maxy |}
  else
    {| is_valid := true;
       minlon := minx; maxlon := maxx; minlat := miny; maxlat := maxy |}.

Definition to_element (lx : lxml) (self : t) (significant_digits : Z)
    : result element :=
  a <- format_stripped significant_digits (minlon self) ;;
  b <- format_stripped significant_digits (minlat self) ;;
  c <- format_stripped significant_digits (maxlon self) ;;
  d <- format_stripped significant_digits (maxlat self) ;;
  let xmlattrs := [("minlon", a); ("minlat", b); ("maxlon", c); ("maxlat", d)] in
  etree_Element lx "bounds" xmlattrs.

Definition to_xml (lx : lxml) (self : t) (significant_digits : Z) : result string :=
  xmlobject <- to_element lx self significant_digits ;;
  Ok (tostring xmlobject).

End OsmBoundary.

(** ** [class OsmGeometry] *)

(** An object reference. *)
Definition addr : Type := nat.

(** The values a candidate tag mapping holds: a string or [None]. *)
Inductive pyvalue : Type :=
| PyNone
| PyStr (s : string).

(** [bool(v)] *)
Definition truthy (v : pyvalue) : bool :=
  match v with
  | PyNone => false
  | PyStr s => negb (String.eqb s EmptyString)
  end.

Module OsmGeometry.

Record t : Type := mk {
  id : Z;
  tags : dict (list string);
  parents : set addr
}.

Definition set_tags (self : t) (new_tags : dict (list string)) : t :=
  {| id := id self; tags := new_tags; parents := parents self |}.

Definition set_parents (self : t) (new_parents : set addr) : t :=
  {| id := id self; tags := tags self; parents := new_parents |}.

(** [__get_new_id]: the new counter value is the id. *)
Definition get_new_id (c : OsmId.t) : Z * OsmId.t :=
  let c' := {| OsmId.element_id_counter :=
                 OsmId.element_id_counter c + OsmId.element_id_counter_incr c;
               OsmId.element_id_counter_incr := OsmId.element_id_counter_incr c |} in
  (OsmId.element_id_counter c', c').

Definition init (c : OsmId.t) : t * OsmId.t :=
  let (new_id, c') := get_new_id c in
  ({| id := new_id; tags := []; parents := empty_set addr |}, c').

(** One turn of the loop of [_append_non_empty_tags]: a truthy value is a
    non-empty string. *)
Definition append_tag (self : t) (kv : string * pyvalue) : t :=
  match snd kv with
  | PyStr value =>
      if truthy (PyStr value)
      then set_tags self (dict_update (tags self) [(fst kv, [value])])
      else self
  | PyNone => self
  end.

Definition _append_non_empty_tags (self : t) (candidates : dict pyvalue) : t :=
  fold_left append_tag candidates self.

Definition addparent (self : t) (parent : addr) : t :=
  set_parents self (set_add Nat.eq_dec parent (parents self)).

Definition removeparent (self : t) (parent : addr) : t :=
  set_parents self (set_remove Nat.eq_dec parent (parents self)).

Definition get_parents (self : t) : set addr := parents self.

(** The [visible] and [id] attributes every [to_xml] starts from. *)
Definition xml_base_attrs (self : t) : dict string :=
  [("visible", "true"); ("id", format_d (id self))].

(** The tag element of a stored tag, when lxml accepts its texts. *)
Definition tag_element (kv : string * list string) : element :=
  Element "tag" [("k", fst kv); ("v", join "," (snd kv))] [].

(** The loop over [self.tags.items()] that ends each [to_xml]. *)
Fixpoint append_tag_elements (lx : lxml) (items : dict (list string))
    (xmlobject : element) : result element :=
  match items with
  | [] => Ok xmlobject
  | (key, value_list) :: rest =>
      tag <- etree_Element lx "tag" [("k", key); ("v", join "," value_list)] ;;
      append_tag_elements lx rest (append xmlobject tag)
  end.

Definition append_tags (lx : lxml) (self : t) (xmlobject : element)
    : result element :=
  append_tag_elements lx (tags self) xmlobject.

End OsmGeometry.

(** ** [class OsmNode] *)

Module OsmNode.

Record t : Type := mk {
  base : OsmGeometry.t;
  x : float;
  y : float
}.

Definition init (x y : float) (tags : dict pyvalue) (c : OsmId.t) : t * OsmId.t :=
  let (b, c') := OsmGeometry.init c in
  ({| base := OsmGeometry._append_non_empty_tags b tags; x := x; y := y |}, c').

Definition to_element (lx : lxml) (self : t) (attributes : dict string)
    (significant_digits : Z) : result element :=
  lat <- format_stripped significant_digits (y self) ;;
  lon <- format_stripped significant_digits (x self) ;;
  let xmlattrs := [("visible", "true");
                   ("id", format_d (OsmGeometry.id (base self)));
                   ("lat", lat);
                   ("lon", lon)] in
  let xmlattrs := dict_update xmlattrs attributes in
  xmlobject <- etree_Element lx "node" xmlattrs ;;
  OsmGeometry.append_tags lx (base self) xmlobject.

Definition to_xml (lx : lxml) (self : t) (attributes : dict string)
    (significant_digits : Z) : result string :=
  xmlobject <- to_element lx self attributes significant_digits ;;
  Ok (tostring xmlobject).

End OsmNode.

(** ** [class OsmWay] and [class OsmRelation]: the data *)

Module OsmWay.

Record t : Type := mk {
  base : OsmGeometry.t;
  nodes : list addr
}.

Definition init (tags : dict pyvalue) (c : OsmId.t) : t * OsmId.t :=
  let (b, c') := OsmGeometry.init c in
  ({| base := OsmGeometry._append_non_empty_tags b tags; nodes := [] |}, c').

End OsmWay.

Module OsmRelation.

Record t : Type := mk {
  base : OsmGeometry.t;
  members : list (addr * string)
}.

Definition init (tags : dict pyvalue) (c : OsmId.t) : t * OsmId.t :=
  let (b, c') := OsmGeometry.init c in
  ({| base := OsmGeometry._append_non_empty_tags b tags; members := [] |}, c').

(** [any(member_roles)]: some role is a non-empty string. *)
Definition any_role (member_roles : list string) : bool :=
  existsb (fun r => truthy (PyStr r)) member_roles.

(** [member_roles[0]] *)
Definition first_role (member_roles : list string) : result string :=
  match member_roles with
  | r :: _ => Ok r
  | [] => Raise IndexError
  end.

Definition get_member_role (self : t) (member : addr) : result string :=
  let member_roles :=
    map snd (filter (fun m => Nat.eqb (fst m) member) (members self)) in
  if any_role member_roles then first_role member_roles else Ok EmptyString.

End OsmRelation.

(** ** The store of objects *)

Inductive object : Type :=
| ONode (n : OsmNode.t)
| OWay (w : OsmWay.t)
| ORelation (r : OsmRelation.t).

Definition object_base (o : object) : OsmGeometry.t :=
  match o with
  | ONode n => OsmNode.base n
  | OWay w => OsmWay.base w
  | ORelation r => OsmRelation.base r
  end.

Definition object_id (o : object) : Z := OsmGeometry.id (object_base o).
Definition object_tags (o : object) : dict (list string) :=
  OsmGeometry.tags (object_base o).

Definition with_base (o : object) (b : OsmGeometry.t) : object :=
  match o with
  | ONode n => ONode {| OsmNode.base := b; OsmNode.x := OsmNode.x n; OsmNode.y := OsmNode.y n |}
  | OWay w => OWay {| OsmWay.base := b; OsmWay.nodes := OsmWay.nodes w |}
  | ORelation r => ORelation {| OsmRelation.base := b; OsmRelation.members := OsmRelation.members r |}
  end.

Definition store : Type := list object.

(** Following a reference. *)
Definition deref (h : store) (a : addr) : result object :=
  match nth_error h a with
  | Some o => Ok o
  | None => Raise AttributeError
  end.

(** The [if type(member) == ...] chain of [OsmRelation.to_xml]. *)
Definition member_type (o : object) : string :=
  match o with
  | ONode _ => "node"
  | OWay _ => "way"
  | ORelation _ => "relation"
  end.

(** ** [OsmWay.to_xml] and [OsmRelation.to_xml] *)

Fixpoint append_nds (lx : lxml) (h : store) (xmlobject : element)
    (nodes : list addr) : result element :=
  match nodes with
  | [] => Ok xmlobject
  | node :: rest =>
      o <- deref h node ;;
      nd <- etree_Element lx "nd" [("ref", format_d (object_id o))] ;;
      append_nds lx h (append xmlobject nd) rest
  end.

Definition OsmWay_to_element (lx : lxml) (h : store) (self : OsmWay.t)
    (attributes : dict string) (significant_digits : Z) : result element :=
  let xmlattrs := OsmGeometry.xml_base_attrs (OsmWay.base self) in
  let xmlattrs := dict_update xmlattrs attributes in
  xmlobject <- etree_Element lx "way" xmlattrs ;;
  xmlobject <- append_nds lx h xmlobject (OsmWay.nodes self) ;;
  OsmGeometry.append_tags lx (OsmWay.base self) xmlobject.

Definition OsmWay_to_xml (lx : lxml) (h : store) (self : OsmWay.t)
    (attributes : dict string) (significant_digits : Z) : result string :=
  xmlobject <- OsmWay_to_element lx h self attributes significant_digits ;;
  Ok (tostring xmlobject).

Fixpoint append_members (lx : lxml) (h : store) (xmlobject : element)
    (members : list (addr * string)) : result element :=
  match members with
  | [] => Ok xmlobject
  | (member, role) :: rest =>
      o <- deref h member ;;
      xmlmember <- etree_Element lx "member" [("type", member_type o);
                                              ("ref", format_d (object_id o));
                                              ("role", role)] ;;
      append_members lx h (append xmlobject xmlmember) rest
  end.

Definition OsmRelation_to_element (lx : lxml) (h : store) (self : OsmRelation.t)
    (attributes : dict string) (significant_digits : Z) : result element :=
  let xmlattrs := OsmGeometry.xml_base_attrs (OsmRelation.base self) in
  let xmlattrs := dict_update xmlattrs attributes in
  xmlobject <- etree_Element lx "relation" xmlattrs ;;
  xmlobject <- append_members lx h xmlobject (OsmRelation.members self) ;;
  tag <- etree_Element lx "tag" [("k", "type"); ("v", "multipolygon")] ;;
  let xmlobject := append xmlobject tag in
  OsmGeometry.append_tags lx (OsmRelation.base self) xmlobject.

Definition OsmRelation_to_xml (lx : lxml) (h : store) (self : OsmRelation.t)
    (attributes : dict string) (significant_digits : Z) : result string :=
  xmlobject <- OsmRelation_to_element lx h self attributes significant_digits ;;
  Ok (tostring xmlobject).

(** [to_xml], dispatched on the class of the object. *)
Definition to_element (lx : lxml) (h : store) (o : object)
    (attributes : dict string) (significant_digits : Z) : result element :=
  match o with
  | ONode n => OsmNode.to_element lx n attributes significant_digits
  | OWay w => OsmWay_to_element lx h w attributes significant_digits
  | ORelation r => OsmRelation_to_element lx h r attributes significant_digits
  end.

Definition to_xml (lx : lxml) (h : store) (o : object)
    (attributes : dict string) (significant_digits : Z) : result string :=
  xmlobject <- to_element lx h o attributes significant_digits ;;
  Ok (tostring xmlobject).

(** ** The program state and the operations of the module *)

Record world : Type := mk_world {
  ids : OsmId.t;
  heap : store
}.

(** The three constructor calls. *)
Inductive ctor : Type :=
| NewNode (x y : float) (tags : dict pyvalue)
| NewWay (tags : dict pyvalue)
| NewRelation (tags : dict pyvalue).

Definition construct (c : ctor) (ctr : OsmId.t) : object * OsmId.t :=
  match c with
  | NewNode x y tags => let (n, ctr') := OsmNode.init x y tags ctr in (ONode n, ctr')
  | NewWay tags => let (w, ctr') := OsmWay.init tags ctr in (OWay w, ctr')
  | NewRelation tags => let (r, ctr') := OsmRelation.init tags ctr in (ORelation r, ctr')
  end.

(** The new object is stored at the next free address. *)
Definition new (c : ctor) (w : world) : addr * world :=
  let (o, ctr') := construct c (ids w) in
  (List.length (heap w), {| ids := ctr'; heap := (heap w ++ [o])%list |}).

(** [heap[a] = f(heap[a])]; nothing happens at an address not in use. *)
Fixpoint update_at (h : store) (a : addr) (f : object -> object) : store :=
  match h, a with
  | [], _ => []
  | o :: h', O => f o :: h'
  | o :: h', S a' => o :: update_at h' a' f
  end.

(** What this module does to the state: it constructs objects, maintains
    their parent sets and sets the counter. *)
Inductive op : Type :=
| Construct (c : ctor)
| AddParent (self parent : addr)
| RemoveParent (self parent : addr)
| SetId (start_id : Z) (is_positive : bool).

Definition exec (o : op) (w : world) : world :=
  match o with
  | Construct c => snd (new c w)
  | AddParent self parent =>
      {| ids := ids w;
         heap := update_at (heap w) self
                   (fun ob => with_base ob (OsmGeometry.addparent (object_base ob) parent)) |}
  | RemoveParent self parent =>
      {| ids := ids w;
         heap := update_at (heap w) self
                   (fun ob => with_base ob (OsmGeometry.removeparent (object_base ob) parent)) |}
  | SetId start_id is_positive =>
      {| ids := OsmId.set_id start_id is_positive (ids w); heap := heap w |}
  end.

Definition run (ops : list op) (w : world) : world :=
  fold_left (fun w o => exec o w) ops w.

(** The objects a sequence of constructor calls creates, in order. *)
Fixpoint construct_all (cs : list ctor) (ctr : OsmId.t) : list object * OsmId.t :=
  match cs with
  | [] => ([], ctr)
  | c :: cs' =>
      let (o, ctr') := construct c ctr in
      let (os, ctr'') := construct_all cs' ctr' in
      (o :: os, ctr'')
  end.

Definition constructed_ids (cs : list ctor) (ctr : OsmId.t) : list Z :=
  map object_id (fst (construct_all cs ctr)).

(** ** [OsmId.load_id] and [OsmId.save_id]

    The files are a dictionary from file names to contents.  Of what [open]
    can raise only the missing file of [load_id] is modelled; the calls of
    [logging.info] are left out.  What the interpreter does with a text that
    has a character beyond ASCII (how the file is decoded, which digits and
    white space of other scripts [int] accepts) is a parameter of the
    model. *)

Record python : Type := mk_python {
  (** [int(s)] for a text with a character beyond ASCII *)
  int_beyond_ascii : string -> result Z;
  (** [int(ff.readline(20))] for a file with a character beyond ASCII *)
  load_beyond_ascii : string -> result Z
}.

Definition is_ascii (c : ascii) : bool := Nat.ltb (nat_of_ascii c) 128.

Definition filesystem : Type := dict string.

Definition newline : ascii := "010"%char.
Definition carriage_return : ascii := "013"%char.

(** [ff.readline(size)] on a file opened in text mode and read from its
    start: at most [size] characters, up to and including the first line end;
    the line ends are a line feed, a carriage return or the two together, all
    read as one line feed. *)
Fixpoint readline (size : nat) (s : string) : string :=
  match size, s with
  | O, _ => EmptyString
  | _, EmptyString => EmptyString
  | S size', String c s' =>
      if Ascii.eqb c newline || Ascii.eqb c carriage_return
      then String newline EmptyString
      else String c (readline size' s')
  end.

(** The characters [int] skips at the two ends of an ASCII text: tab, line
    feed, vertical tab, form feed, carriage return, space. *)
Definition whitespace : string :=
  String "009"%char (String "010"%char (String "011"%char (String "012"%char
  (String "013"%char (String "032"%char EmptyString))))).

(** The digits of a decimal literal without its underscores; an underscore
    is accepted only between two digits. *)
Fixpoint drop_underscores (after_digit : bool) (s : string) : option string :=
  match s with
  | EmptyString => Some EmptyString
  | String c s' =>
      if Ascii.eqb c "_"%char then
        match s' with
        | String d _ =>
            if after_digit && char_in d digits then drop_underscores false s' else None
        | EmptyString => None
        end
      else option_map (String c) (drop_underscores (char_in c digits) s')
  end.

(** [int(s)] for an ASCII text [s]: white space around, an optional sign,
    decimal digits; anything else is a [ValueError]. *)
Definition ascii_int (s : string) : result Z :=
  let t := strip whitespace s in
  let '(negative, body) :=
    match t with
    | String c r =>
        if Ascii.eqb c "-"%char then (true, r)
        else if Ascii.eqb c "+"%char then (false, r)
        else (false, t)
    | EmptyString => (false, t)
    end in
  match drop_underscores false body with
  | None => Raise ValueError
  | Some ds =>
      match NilEmpty.uint_of_string ds with
      | None => Raise ValueError
      | Some Decimal.Nil => Raise ValueError
      | Some u => Ok (if negative then - Z.of_uint u else Z.of_uint u)
      end
  end.

(** [int(s)] *)
Definition py_int (py : python) (s : string) : result Z :=
  if forall_chars is_ascii s then ascii_int s else int_beyond_ascii py s.

Inductive load_outcome : Type :=
| Loaded (st : OsmId.t)      (* the counter state after [load_id] *)
| LoadRaises (e : exn)       (* [int] raised; the counter is as before *)
| NoSuchFile.                (* [open] raised [FileNotFoundError] *)

Definition OsmId_load_id (py : python) (filename : string) (fs : filesystem)
    (st : OsmId.t) : load_outcome :=
  match dict_get fs filename with
  | None => NoSuchFile
  | Some contents =>
      match (if forall_chars is_ascii contents
             then py_int py (readline 20 contents)
             else load_beyond_ascii py contents) with
      | Ok n => Loaded {| OsmId.element_id_counter := n;
                          OsmId.element_id_counter_incr :=
                            OsmId.element_id_counter_incr st |}
      | Raise e => LoadRaises e
      end
  end.

(** [str(OsmId.element_id_counter)] replaces the contents of the file. *)
Definition OsmId_save_id (filename : string) (fs : filesystem) (st : OsmId.t)
    : filesystem :=
  dict_setitem fs filename (format_d (OsmId.element_id_counter st)).

(** ** Vocabulary of the statements *)

(** [r] is the least of [a] and [b] in the order of the floats. *)
Definition is_min_of (r a b : float) : Prop :=
  (r = a \/ r = b) /\ SFleb r a = true /\ SFleb r b = true.

(** [r] is the greatest of [a] and [b]. *)
Definition is_max_of (r a b : float) : Prop :=
  (r = a \/ r = b) /\ SFleb a r = true /\ SFleb b r = true.

(** A sequence of [add_envelope] calls. *)
Definition add_envelopes (b : OsmBoundary.t)
    (envs : list (float * float * float * float)) : OsmBoundary.t :=
  fold_left (fun b e =>
      match e with
      | (minx, maxx, miny, maxy) => OsmBoundary.add_envelope b minx maxx miny maxy
      end) envs b.

(** The tags the specification says are stored: the pairs of the candidate
    mapping whose value is a non-empty string, in the order of the mapping,
    each value in a list of one. *)
Definition non_empty_tags (candidates : dict pyvalue) : dict (list string) :=
  flat_map (fun kv =>
      match snd kv with
      | PyStr s => if String.eqb s EmptyString then [] else [(fst kv, [s])]
      | PyNone => []
      end) candidates.

(** The candidate tags a constructor call passes. *)
Definition ctor_tags (c : ctor) : dict pyvalue :=
  match c with
  | NewNode _ _ tags => tags
  | NewWay tags => tags
  | NewRelation tags => tags
  end.

(** The role the specification says the lookup returns: that of the first
    pair of [members] whose entity is [member], the empty string when there
    is no such pair. *)
Definition role_of_first_match (members : list (addr * string)) (member : addr)
    : string :=
  match find (fun m => Nat.eqb (fst m) member) members with
  | Some (_, role) => role
  | None => EmptyString
  end.

(** What a member child is, for the pair [m] of the member list. *)
Definition member_child_of (h : store) (m : addr * string) (child : element) : Prop :=
  exists o, nth_error h (fst m) = Some o
    /\ child = Element "member"
                 [("type", match o with
                           | ONode _ => "node"
                           | OWay _ => "way"
                           | ORelation _ => "relation"
                           end);
                  ("ref", format_d (object_id o));
                  ("role", snd m)] [].

(** A store with a point, a path and a group, made by three constructor
    calls from the initial counter, and a second group with the path as outer
    member and the point as a member without role. *)
Definition ex_store : store :=
  fst (construct_all
         [NewNode f_52_5 f_zero [("name", PyStr "Main St")]; NewWay []; NewRelation []]
         OsmId.initial).

Definition ex_relation : OsmRelation.t :=
  OsmRelation.mk (OsmGeometry.mk (-4) [("natural", ["water"])] [])
    [(1%nat, "outer"); (0%nat, EmptyString)].

(** The attributes of an element are its computed attributes overlaid with
    those of the caller, and [k] has the caller's value [v] there. *)
Definition overlaid (computed_keys : list string) (attributes : dict string)
    (k v : string) (elt : element) : Prop :=
  exists computed,
    keys computed = computed_keys
    /\ element_attrib elt = dict_update computed attributes
    /\ dict_get (element_attrib elt) k = Some v
    /\ forall k', ~ In k' (keys attributes) ->
         dict_get (element_attrib elt) k' = dict_get computed k'.

(** A point with id -1 at x = 52.5, y = 0.0, and attributes of a caller that
    give an id and a version. *)
Definition ex_node : OsmNode.t :=
  fst (OsmNode.init f_52_5 f_zero [("name", PyStr "Main St")] OsmId.initial).

Definition ex_attributes : dict string := [("id", "9"); ("version", "1")].

(** A stored value list that has exactly one value, which is then all that
    the comma-join of the serialisation gives. *)
Definition one_value (vl : list string) : Prop :=
  List.length vl = 1%nat /\ exists v, vl = [v] /\ join "," vl = v.

Definition tags_one_value (o : object) : Prop :=
  Forall (fun kv => one_value (snd kv)) (object_tags o).

Definition first_char (s : string) : option ascii :=
  match s with
  | EmptyString => None
  | String c _ => Some c
  end.

Fixpoint last_char (s : string) : option ascii :=
  match s with
  | EmptyString => None
  | String c EmptyString => Some c
  | String _ s' => last_char s'
  end.

Definition not_in_chars (chars : string) (c : option ascii) : Prop :=
  match c with
  | Some c => char_in c chars = false
  | None => True
  end.

(** [t] is [s] without the characters of [chars] it has at its two ends:
    what comes off at either end is made of [chars] only, and [t] neither
    starts nor ends with one of them. *)
Definition stripped_of (chars s t : string) : Prop :=
  exists l r,
    s = l ++ t ++ r
    /\ all_in chars l = true /\ all_in chars r = true
    /\ not_in_chars chars (first_char t) /\ not_in_chars chars (last_char t).

(** [s] is a number in fixed notation with exactly [p] digits after the
    point (and no point when [p] is 0). *)
Definition fixed_notation (p : nat) (s : string) : Prop :=
  exists sgn ip fp,
    s = sgn ++ ip ++ match p with O => EmptyString | S _ => "." end ++ fp
    /\ (sgn = EmptyString \/ sgn = "-")
    /\ ip <> EmptyString
    /\ all_in digits ip = true
    /\ all_in digits fp = true
    /\ String.length fp = p.

(** A valid box over the values 0.0 and 52.5, and a point with a NaN as x
    and an infinity as y. *)
Definition ex_boundary : OsmBoundary.t :=
  OsmBoundary.add_envelope OsmBoundary.init f_zero f_52_5 f_zero f_52_5.

Definition ex_nan_node : OsmNode.t :=
  fst (OsmNode.init f_nan f_inf [] OsmId.initial).

(** The texts ['%.<n>f'] gives for a value that is not finite. *)
Definition non_finite_texts : list string := ["nan"; "inf"; "-inf"].

(** What an [nd] child is, for the node reference [a] of a path. *)
Definition nd_child_of (h : store) (a : addr) (child : element) : Prop :=
  exists o, nth_error h a = Some o
    /\ child = Element "nd" [("ref", format_d (object_id o))] [].

(** -0.0 *)
Definition f_neg_zero : float := S754_zero true.

(** The envelopes [add_envelope] is called with: minx, maxx, miny, maxy. *)
Definition envelope : Type := float * float * float * float.

Definition env_minx (e : envelope) : float := fst (fst (fst e)).
Definition env_maxx (e : envelope) : float := snd (fst (fst e)).
Definition env_miny (e : envelope) : float := snd (fst e).
Definition env_maxy (e : envelope) : float := snd e.

Definition env_nan_free (e : envelope) : Prop :=
  is_nan (env_minx e) = false /\ is_nan (env_maxx e) = false
  /\ is_nan (env_miny e) = false /\ is_nan (env_maxy e) = false.

(** The box [b] reaches at least as far as the envelope [e] on all four
    sides. *)
Definition box_contains (b : OsmBoundary.t) (e : envelope) : Prop :=
  SFleb (OsmBoundary.minlon b) (env_minx e) = true
  /\ SFleb (env_maxx e) (OsmBoundary.maxlon b) = true
  /\ SFleb (OsmBoundary.minlat b) (env_miny e) = true
  /\ SFleb (env_maxy e) (OsmBoundary.maxlat b) = true.

(** The order of the floats that are not NaN is the lexicographic order of
    these keys. *)
Definition lex_key (x : float) : Z * Z * Z :=
  match x with
  | S754_nan => (0, 0, 0)
  | S754_infinity true => (-2, 0, 0)
  | S754_infinity false => (2, 0, 0)
  | S754_zero _ => (0, 0, 0)
  | S754_finite true m e => (-1, - e, - Z.pos m)
  | S754_finite false m e => (1, e, Z.pos m)
  end.

Definition lex_le (a b : Z * Z * Z) : Prop :=
  fst (fst a) < fst (fst b)
  \/ (fst (fst a) = fst (fst b)
      /\ (snd (fst a) < snd (fst b)
          \/ (snd (fst a) = snd (fst b) /\ snd a <= snd b))).

(** Calls of [addparent] and [removeparent] on one object. *)
Inductive parent_call : Type :=
| Add (parent : addr)
| Remove (parent : addr).

Definition apply_parent_call (self : OsmGeometry.t) (c : parent_call) : OsmGeometry.t :=
  match c with
  | Add parent => OsmGeometry.addparent self parent
  | Remove parent => OsmGeometry.removeparent self parent
  end.

Definition apply_parent_calls (self : OsmGeometry.t) (calls : list parent_call)
    : OsmGeometry.t :=
  fold_left apply_parent_call calls self.

(** Whether [q] is a parent after one more call, given whether it was one
    before. *)
Definition parent_after (q : addr) (before : bool) (c : parent_call) : bool :=
  match c with
  | Add parent => if Nat.eqb parent q then true else before
  | Remove parent => if Nat.eqb parent q then false else before
  end.

(** The value list under a key after [_append_non_empty_tags], given what
    the candidates hold for the key and what was stored before. *)
Definition stored_value (candidate : option pyvalue) (old : option (list string))
    : option (list string) :=
  match candidate with
  | Some (PyStr s) => if String.eqb s EmptyString then old else Some [s]
  | _ => old
  end.

(** The characters of the text of an integer. *)
Definition int_chars : string := "-0123456789".

(** [c in s] *)
Fixpoint occurs (c : ascii) (s : string) : bool :=
  match s with
  | EmptyString => false
  | String d s' => Ascii.eqb c d || occurs c s'
  end.

(** The characters a text that [int] accepts can be made of. *)
Definition int_literal_chars : string := digits ++ "_+-" ++ whitespace.

(** What lxml accepts of what a caller supplies: the names and values of the
    attributes, the keys and joined values of the stored tags, the roles. *)
Definition attributes_accepted (lx : lxml) (attributes : dict string) : bool :=
  forallb (fun kv => valid_name lx (fst kv) && valid_text lx (snd kv)) attributes.

Definition tags_accepted (lx : lxml) (tags : dict (list string)) : bool :=
  forallb (fun kv => valid_text lx (fst kv) && valid_text lx (join "," (snd kv))) tags.

Definition roles_accepted (lx : lxml) (members : list (addr * string)) : bool :=
  forallb (fun m => valid_text lx (snd m)) members.

(** An lxml that refuses whatever this model leaves open. *)
Definition strict_lxml : lxml :=
  {| accepts_name := fun _ => false; accepts_text := fun _ => false |}.

(** *** The markup of an element

    The text of an element as the interchange format has it: the attributes
    each as a space, the name, an equals sign and the value between double
    quotes; in a value the characters & < > and the double quote written as
    the entities amp, lt, gt and quot, and tab, line feed and carriage return
    as the character references 9, 10 and 13. *)

Definition entity_of (c : ascii) : option string :=
  match nat_of_ascii c with
  | 38%nat => Some "&amp;"
  | 60%nat => Some "&lt;"
  | 62%nat => Some "&gt;"
  | 34%nat => Some "&quot;"
  | 9%nat => Some "&#9;"
  | 10%nat => Some "&#10;"
  | 13%nat => Some "&#13;"
  | _ => None
  end.

Definition markup_value (v : string) : string :=
  String.concat EmptyString
    (map (fun c => match entity_of c with
                   | Some e => e
                   | None => String c EmptyString
                   end) (list_ascii_of_string v)).

Definition markup_attribute (kv : string * string) : string :=
  " " ++ fst kv ++ "=" ++ String "034"%char (markup_value (snd kv))
  ++ String "034"%char EmptyString.

Definition markup_attributes (attrib : dict string) : string :=
  String.concat EmptyString (map markup_attribute attrib).

(** An element without children. *)
Definition markup_empty (tag : string) (attrib : dict string) : string :=
  "<" ++ tag ++ markup_attributes attrib ++ "/>".

(** An element with the markup of its children. *)
Definition markup_parent (tag : string) (attrib : dict string)
    (children : list string) : string :=
  "<" ++ tag ++ markup_attributes attrib ++ ">"
  ++ String.concat EmptyString children ++ "</" ++ tag ++ ">".

(** The markup of a child element that has no children itself. *)
Definition child_markup (e : element) : string :=
  markup_empty (element_tag e) (element_attrib e).

(** [part] is a part of the text [s]. *)
Definition text_contains (s part : string) : Prop :=
  exists before after, s = before ++ part ++ after.

(** *** The number a formatted text shows *)

(** The number a text of decimal digits denotes. *)
Definition digits_value (s : string) : Z :=
  fold_left (fun acc c => 10 * acc + (Z.of_nat (nat_of_ascii c) - 48))
            (list_ascii_of_string s) 0.

(** [n] is the integer nearest to [num / den], the even one of the two when
    [num / den] lies halfway between two integers. *)
Definition nearest_even (num den n : Z) : Prop :=
  2 * Z.abs (n * den - num) <= den
  /\ (2 * Z.abs (n * den - num) = den -> Z.even n = true).

(** [n] is the absolute value of the finite float [x], times [10^p], rounded
    to the nearest integer, ties to even: the value of [x] is
    [m * 2^e]. *)
Definition rounds_to (x : float) (p : nat) (n : Z) : Prop :=
  match x with
  | S754_zero _ => n = 0
  | S754_finite _ m e =>
      nearest_even (Z.pos m * 10 ^ Z.of_nat p * 2 ^ Z.max e 0) (2 ^ Z.max (- e) 0) n
  | _ => False
  end.

Definition sign_bit (x : float) : bool :=
  match x with
  | S754_zero s | S754_infinity s | S754_finite s _ _ => s
  | S754_nan => false
  end.

(** [s] is the finite float [x] in fixed notation with exactly [p] digits
    after the point (no point when [p] is 0): a minus sign when the sign bit
    is set, the digits of the integer part, the point, [p] digits; and the
    digits read together are [x * 10^p] correctly rounded. *)
Definition renders (x : float) (p : nat) (s : string) : Prop :=
  exists ip fp,
    s = (if sign_bit x then "-" else EmptyString) ++ ip
        ++ match p with O => EmptyString | S _ => "." end ++ fp
    /\ ip <> EmptyString
    /\ all_in digits ip = true
    /\ all_in digits fp = true
    /\ String.length fp = p
    /\ rounds_to x p (digits_value (ip ++ fp)).

(** The characters of a formatted float. *)
Definition float_chars : string := "-.0123456789nanif".

(** The markup of an element whose children have no children of their own:
    the short form when there is no child. *)
Definition markup_of (e : element) : string :=
  match element_children e with
  | [] => markup_empty (element_tag e) (element_attrib e)
  | children => markup_parent (element_tag e) (element_attrib e) (map child_markup children)
  end.

Definition childless (e : element) : Prop := element_children e = [].

(** A text between double quotes. *)
Definition quoted (s : string) : string :=
  String "034"%char (s ++ String "034"%char EmptyString).

(** Whether a result is a value. *)
Definition succeeds {A : Type} (r : result A) : bool :=
  match r with Ok _ => true | Raise _ => false end.

(** A point like [n] at other coordinates. *)
Definition moved_to (n : OsmNode.t) (x y : float) : OsmNode.t :=
  {| OsmNode.base := OsmNode.base n; OsmNode.x := x; OsmNode.y := y |}.

(** Attributes of a caller with characters the markup escapes. *)
Definition ex_escaped_attributes : dict string := [("user", "R&D <1>")].

(** Two dictionaries with the same keys in the same order, whose values lxml
    judges alike entry by entry. *)
Definition same_shape (lx : lxml) (d d' : dict string) : Prop :=
  Forall2 (fun kv kv' => fst kv = fst kv'
                         /\ valid_text lx (snd kv) = valid_text lx (snd kv')) d d'.

(** An interpreter that raises wherever this model leaves it open. *)
Definition ex_python : python :=
  {| int_beyond_ascii := fun _ => Raise ValueError;
     load_beyond_ascii := fun _ => Raise ValueError |}.

(** * Properties *)

(** ** The identifier counter *)

Lemma set_tags_id (b : OsmGeometry.t) (d : dict (list string)) :
  OsmGeometry.id (OsmGeometry.set_tags b d) = OsmGeometry.id b.
Proof. reflexivity. Qed.

Lemma append_tag_id (b : OsmGeometry.t) (kv : string * pyvalue) :
  OsmGeometry.id (OsmGeometry.append_tag b kv) = OsmGeometry.id b.
Proof.
  unfold OsmGeometry.append_tag.
  destruct (snd kv) as [|s]; [reflexivity|].
  destruct (truthy (PyStr s)); reflexivity.
Qed.

Lemma append_non_empty_tags_id (candidates : dict pyvalue) (b : OsmGeometry.t) :
  OsmGeometry.id (OsmGeometry._append_non_empty_tags b candidates) = OsmGeometry.id b.
Proof.
  unfold OsmGeometry._append_non_empty_tags.
  revert b; induction candidates as [|kv cs IH]; intros b; simpl.
  - reflexivity.
  - rewrite IH. apply append_tag_id.
Qed.

(** A constructor call moves the counter one step and hands the new
    counter value to the object, whatever its class. *)
Lemma construct_step (c : ctor) (ctr : OsmId.t) :
  object_id (fst (construct c ctr))
    = OsmId.element_id_counter ctr + OsmId.element_id_counter_incr ctr
  /\ snd (construct c ctr)
    = OsmId.mk (OsmId.element_id_counter ctr + OsmId.element_id_counter_incr ctr)
               (OsmId.element_id_counter_incr ctr).
Proof.
  destruct c; simpl; unfold object_id; simpl;
    rewrite append_non_empty_tags_id; simpl; split; reflexivity.
Qed.

Lemma constructed_ids_cons (c : ctor) (cs : list ctor) (ctr : OsmId.t) :
  constructed_ids (c :: cs) ctr
    = object_id (fst (construct c ctr)) :: constructed_ids cs (snd (construct c ctr)).
Proof.
  unfold constructed_ids; simpl.
  destruct (construct c ctr) as [o ctr']; simpl.
  destruct (construct_all cs ctr') as [os ctr'']; reflexivity.
Qed.

Lemma constructed_ids_walk (cs : list ctor) (start step : Z) :
  constructed_ids cs (OsmId.mk start step)
    = map (fun k => start + Z.of_nat k * step) (seq 1 (List.length cs)).
Proof.
  revert start; induction cs as [|c cs IH]; intros start.
  - reflexivity.
  - rewrite constructed_ids_cons.
    destruct (construct_step c (OsmId.mk start step)) as [Hid Hctr].
    simpl in Hid, Hctr. rewrite Hid, Hctr, IH.
    change (seq 1 (List.length (c :: cs))) with (1%nat :: seq 2 (List.length cs)).
    rewrite map_cons. f_equal; [lia|].
    rewrite <- !seq_shift, !map_map.
    apply map_ext; intros k. lia.
Qed.

Lemma walk_NoDup (start step : Z) (n : nat) :
  step <> 0 ->
  NoDup (map (fun k => start + Z.of_nat k * step) (seq 1 n)).
Proof.
  intros Hstep. apply Injective_map_NoDup.
  - intros a b Hab. nia.
  - apply seq_NoDup.
Qed.

(** The objects that constructor calls add to the store carry the ids of
    [constructed_ids], after those of the objects already there. *)
Lemma run_construct_ids (cs : list ctor) (w : world) :
  map object_id (heap (run (map Construct cs) w))
    = (map object_id (heap w) ++ constructed_ids cs (ids w))%list
  /\ ids (run (map Construct cs) w) = snd (construct_all cs (ids w)).
Proof.
  revert w; induction cs as [|c cs IH]; intros w.
  - unfold constructed_ids; simpl. rewrite app_nil_r. split; reflexivity.
  - change (run (map Construct (c :: cs)) w)
      with (run (map Construct cs) (snd (new c w))).
    destruct (IH (snd (new c w))) as [IHh IHc]. rewrite IHh, IHc.
    rewrite constructed_ids_cons. unfold new. simpl.
    destruct (construct c (ids w)) as [o ctr']; simpl.
    rewrite map_app, <- app_assoc. simpl.
    destruct (construct_all cs ctr') as [os ctr'']. split; reflexivity.
Qed.

(** C2: from a counter at [start], the k-th of any sequence of constructor
    calls (k = 1, 2, ...) gets the id [start + k] when the step is [+1] and
    [start - k] when it is [-1], whatever the classes of the objects; so the
    ids of the sequence are pairwise different. *)
Theorem allocation_walk (start : Z) (cs : list ctor) :
  constructed_ids cs (OsmId.mk start 1)
    = map (fun k => start + Z.of_nat k) (seq 1 (List.length cs))
  /\ constructed_ids cs (OsmId.mk start (-1))
    = map (fun k => start - Z.of_nat k) (seq 1 (List.length cs))
  /\ NoDup (constructed_ids cs (OsmId.mk start 1))
  /\ NoDup (constructed_ids cs (OsmId.mk start (-1))).
Proof.
  rewrite !constructed_ids_walk. repeat split.
  - apply map_ext; intros k; lia.
  - apply map_ext; intros k; lia.
  - apply walk_NoDup; lia.
  - apply walk_NoDup; lia.
Qed.

(** The walk of C2 is that of one configuration of the counter: a [set_id]
    between two constructor calls can hand out an id a second time. *)
Example set_id_between_constructions_repeats :
  map object_id
    (heap (run [Construct (NewWay []); SetId 0 false; Construct (NewWay [])]
               (mk_world OsmId.initial [])))
  = [-1; -1].
Proof. reflexivity. Qed.

(** C3 (as the code has it): [set_id] sets the counter to [start_id]; it
    sets the step to [+1] when [is_positive] is true and leaves the step as
    it was when [is_positive] is false, which is [-1] in the state the class
    starts in. *)
Theorem set_id_spec (st : OsmId.t) (start_id : Z) (is_positive : bool) :
  OsmId.element_id_counter (OsmId.set_id start_id is_positive st) = start_id
  /\ OsmId.element_id_counter_incr (OsmId.set_id start_id is_positive st)
     = (if is_positive then 1 else OsmId.element_id_counter_incr st)
  /\ OsmId.element_id_counter_incr (OsmId.set_id start_id false OsmId.initial) = -1.
Proof.
  unfold OsmId.set_id; destruct is_positive; simpl; repeat split; reflexivity.
Qed.

(** C3 does not hold as stated: after [set_id(0, True)], a call
    [set_id(5, False)] leaves the step at [+1]. *)
Lemma set_id_keeps_positive_step :
  OsmId.element_id_counter_incr
    (OsmId.set_id 5 false (OsmId.set_id 0 true OsmId.initial)) <> -1.
Proof. simpl. discriminate. Qed.

(** ** The order of the floats, [min] and [max] *)

Lemma SFcompare_antisym (a b : float) :
  SFcompare b a = option_map CompOpp (SFcompare a b).
Proof.
  destruct a as [sa|sa| |sa ma ea], b as [sb|sb| |sb mb eb]; simpl;
    try reflexivity; try (destruct sa; reflexivity);
    try (destruct sb; reflexivity);
    try (destruct sa, sb; reflexivity).
  f_equal.
  rewrite (Z.compare_antisym ea eb).
  change (Pos.compare_cont Eq mb ma) with (Pos.compare mb ma).
  change (Pos.compare_cont Eq ma mb) with (Pos.compare ma mb).
  rewrite (Pos.compare_antisym ma mb).
  destruct sa, sb; try reflexivity;
    destruct (ea ?= eb); simpl; try reflexivity;
    destruct (ma ?= mb)%positive; reflexivity.
Qed.

Lemma SFcompare_refl (a : float) :
  is_nan a = false -> SFcompare a a = Some Eq.
Proof.
  destruct a as [s|s| |s m e]; simpl; intros H; try discriminate.
  - reflexivity.
  - destruct s; reflexivity.
  - change (Pos.compare_cont Eq m m) with (Pos.compare m m).
    rewrite Z.compare_refl, Pos.compare_refl. destruct s; reflexivity.
Qed.

Lemma SFcompare_nan_free (a b : float) :
  is_nan a = false -> is_nan b = false -> exists c, SFcompare a b = Some c.
Proof.
  destruct a, b; simpl; intros Ha Hb; try discriminate; eexists; reflexivity.
Qed.

Lemma SFltb_irrefl (a : float) : SFltb a a = false.
Proof.
  unfold SFltb. destruct (is_nan a) eqn:Ha.
  - destruct a; try discriminate. reflexivity.
  - rewrite SFcompare_refl by exact Ha. reflexivity.
Qed.

Lemma SFltb_asym (a b : float) : SFltb a b = true -> SFltb b a = false.
Proof.
  unfold SFltb. rewrite (SFcompare_antisym a b).
  destruct (SFcompare a b) as [[| |]|]; simpl; intros H;
    try discriminate; reflexivity.
Qed.

Lemma SFltb_SFleb (a b : float) : SFltb a b = true -> SFleb a b = true.
Proof.
  unfold SFltb, SFleb.
  destruct (SFcompare a b) as [[| |]|]; intros H; try discriminate; reflexivity.
Qed.

Lemma SFleb_refl (a : float) : is_nan a = false -> SFleb a a = true.
Proof. intros H. unfold SFleb. rewrite SFcompare_refl by exact H. reflexivity. Qed.

Lemma not_SFltb_SFleb (a b : float) :
  is_nan a = false -> is_nan b = false -> SFltb b a = false -> SFleb a b = true.
Proof.
  intros Ha Hb. unfold SFltb, SFleb. rewrite (SFcompare_antisym a b).
  destruct (SFcompare_nan_free a b Ha Hb) as [c Hc]. rewrite Hc.
  destruct c; simpl; intros H; try discriminate; reflexivity.
Qed.

Lemma py_min_below (a b : float) :
  SFltb a (py_min a b) = false /\ SFltb b (py_min a b) = false.
Proof.
  unfold py_min. destruct (SFltb b a) eqn:Hba.
  - split; [apply SFltb_asym; exact Hba | apply SFltb_irrefl].
  - split; [apply SFltb_irrefl | exact Hba].
Qed.

Lemma py_max_above (a b : float) :
  SFltb (py_max a b) a = false /\ SFltb (py_max a b) b = false.
Proof.
  unfold py_max. destruct (SFltb a b) eqn:Hab.
  - split; [apply SFltb_asym; exact Hab | apply SFltb_irrefl].
  - split; [apply SFltb_irrefl | exact Hab].
Qed.

Lemma py_min_is_min (a b : float) :
  is_nan a = false -> is_nan b = false -> is_min_of (py_min a b) a b.
Proof.
  intros Ha Hb. unfold is_min_of, py_min. destruct (SFltb b a) eqn:Hba.
  - repeat split; [right; reflexivity | apply SFltb_SFleb; exact Hba
                  | apply SFleb_refl; exact Hb].
  - repeat split; [left; reflexivity | apply SFleb_refl; exact Ha
                  | apply not_SFltb_SFleb; assumption].
Qed.

Lemma py_max_is_max (a b : float) :
  is_nan a = false -> is_nan b = false -> is_max_of (py_max a b) a b.
Proof.
  intros Ha Hb. unfold is_max_of, py_max. destruct (SFltb a b) eqn:Hab.
  - repeat split; [right; reflexivity | apply SFltb_SFleb; exact Hab
                  | apply SFleb_refl; exact Hb].
  - repeat split; [left; reflexivity | apply SFleb_refl; exact Ha
                  | apply not_SFltb_SFleb; assumption].
Qed.

(** ** The bounding box *)

Lemma add_envelope_valid (b : OsmBoundary.t) (minx maxx miny maxy : float) :
  OsmBoundary.is_valid (OsmBoundary.add_envelope b minx maxx miny maxy) = true.
Proof.
  unfold OsmBoundary.add_envelope.
  destruct (OsmBoundary.is_valid b); reflexivity.
Qed.

Lemma add_envelopes_valid (envs : list (float * float * float * float))
    (b : OsmBoundary.t) :
  OsmBoundary.is_valid b = true ->
  OsmBoundary.is_valid (add_envelopes b envs) = true.
Proof.
  unfold add_envelopes.
  revert b; induction envs as [|[[[minx maxx] miny] maxy] envs IH]; intros b Hb; simpl.
  - exact Hb.
  - apply IH, add_envelope_valid.
Qed.

(** C5: the call of [add_envelope] on a box that is not valid yet (the
    first call) adopts the envelope and makes the box valid; a call on a valid
    box replaces each bound by the [min] of the minima or the [max] of the
    maxima, which never moves a minimum up or a maximum down and, when no NaN
    is involved, is the union of the two envelopes; the box stays valid
    through every further call; and [add_envelope(1,2,3,4)] followed by
    [add_envelope(0,5,3,3)] gives minlon 0, maxlon 5, minlat 3, maxlat 4. *)
Theorem add_envelope_spec :
  (forall b minx maxx miny maxy,
     OsmBoundary.is_valid b = false ->
     OsmBoundary.add_envelope b minx maxx miny maxy
       = OsmBoundary.mk true minx maxx miny maxy)
  /\ (forall b minx maxx miny maxy,
     OsmBoundary.is_valid b = true ->
     let b' := OsmBoundary.add_envelope b minx maxx miny maxy in
     b' = OsmBoundary.mk true
            (py_min (OsmBoundary.minlon b) minx) (py_max (OsmBoundary.maxlon b) maxx)
            (py_min (OsmBoundary.minlat b) miny) (py_max (OsmBoundary.maxlat b) maxy)
     /\ SFltb (OsmBoundary.minlon b) (OsmBoundary.minlon b') = false
     /\ SFltb (OsmBoundary.maxlon b') (OsmBoundary.maxlon b) = false
     /\ SFltb (OsmBoundary.minlat b) (OsmBoundary.minlat b') = false
     /\ SFltb (OsmBoundary.maxlat b') (OsmBoundary.maxlat b) = false
     /\ (is_nan (OsmBoundary.minlon b) = false -> is_nan minx = false ->
         is_min_of (OsmBoundary.minlon b') (OsmBoundary.minlon b) minx)
     /\ (is_nan (OsmBoundary.maxlon b) = false -> is_nan maxx = false ->
         is_max_of (OsmBoundary.maxlon b') (OsmBoundary.maxlon b) maxx)
     /\ (is_nan (OsmBoundary.minlat b) = false -> is_nan miny = false ->
         is_min_of (OsmBoundary.minlat b') (OsmBoundary.minlat b) miny)
     /\ (is_nan (OsmBoundary.maxlat b) = false -> is_nan maxy = false ->
         is_max_of (OsmBoundary.maxlat b') (OsmBoundary.maxlat b) maxy))
  /\ (forall b minx maxx miny maxy envs,
     OsmBoundary.is_valid
       (add_envelopes (OsmBoundary.add_envelope b minx maxx miny maxy) envs) = true)
  /\ OsmBoundary.add_envelope
       (OsmBoundary.add_envelope OsmBoundary.init f_one f_two f_three f_four)
       f_zero f_five f_three f_three
     = OsmBoundary.mk true f_zero f_five f_three f_four.
Proof.
  split; [|split; [|split]].
  - intros b minx maxx miny maxy Hv.
    unfold OsmBoundary.add_envelope. rewrite Hv. reflexivity.
  - intros b minx maxx miny maxy Hv b'.
    assert (Hb' : b' = OsmBoundary.mk true
            (py_min (OsmBoundary.minlon b) minx) (py_max (OsmBoundary.maxlon b) maxx)
            (py_min (OsmBoundary.minlat b) miny) (py_max (OsmBoundary.maxlat b) maxy)).
    { unfold b', OsmBoundary.add_envelope. rewrite Hv. reflexivity. }
    split; [exact Hb'|]. rewrite Hb'. simpl.
    repeat split;
      try apply py_min_below; try apply py_max_above;
      try (apply py_min_is_min; assumption);
      try (apply py_max_is_max; assumption).
  - intros b minx maxx miny maxy envs.
    apply add_envelopes_valid, add_envelope_valid.
  - reflexivity.
Qed.

(** C5 at a valid box: the example of the specification. *)
Lemma add_envelope_spec_witness :
  OsmBoundary.is_valid
    (OsmBoundary.add_envelope OsmBoundary.init f_one f_two f_three f_four) = true
  /\ OsmBoundary.minlon
       (OsmBoundary.add_envelope
          (OsmBoundary.add_envelope OsmBoundary.init f_one f_two f_three f_four)
          f_zero f_five f_three f_three) = f_zero.
Proof.
  split; [reflexivity|].
  destruct (proj1 (proj2 add_envelope_spec)
              (OsmBoundary.add_envelope OsmBoundary.init f_one f_two f_three f_four)
              f_zero f_five f_three f_three eq_refl) as [H _].
  rewrite H. reflexivity.
Defined.

(** ** Dictionaries *)

Section Dict.

Context {V : Type}.

Lemma dict_setitem_fresh (d : dict V) (k : string) (v : V) :
  ~ In k (keys d) -> dict_setitem d k v = (d ++ [(k, v)])%list.
Proof.
  induction d as [|[k' v'] d IH]; simpl; intros Hk.
  - reflexivity.
  - destruct (String.eqb_spec k k') as [->|Hne].
    + exfalso; apply Hk; left; reflexivity.
    + rewrite IH; [reflexivity|]. intros Hin; apply Hk; right; exact Hin.
Qed.

Lemma dict_get_setitem (d : dict V) (k k' : string) (v : V) :
  dict_get (dict_setitem d k v) k'
    = if String.eqb k' k then Some v else dict_get d k'.
Proof.
  induction d as [|[k0 v0] d IH]; simpl.
  - reflexivity.
  - destruct (String.eqb_spec k k0) as [->|Hne]; simpl.
    + destruct (String.eqb k' k0); reflexivity.
    + rewrite IH.
      destruct (String.eqb_spec k' k0) as [->|Hne'].
      * destruct (String.eqb_spec k0 k) as [Heq|_]; [congruence|reflexivity].
      * reflexivity.
Qed.

Lemma dict_get_update_other (other d : dict V) (k : string) :
  ~ In k (keys other) -> dict_get (dict_update d other) k = dict_get d k.
Proof.
  unfold dict_update.
  revert d; induction other as [|[k0 v0] other IH]; intros d Hk; simpl.
  - reflexivity.
  - rewrite IH by (intros Hin; apply Hk; right; exact Hin).
    rewrite dict_get_setitem.
    destruct (String.eqb_spec k k0) as [->|_]; [|reflexivity].
    exfalso; apply Hk; left; reflexivity.
Qed.

(** After [d.update(other)], a key of [other] has the value [other] gives
    it. *)
Lemma dict_get_update_in (other d : dict V) (k : string) (v : V) :
  NoDup (keys other) -> In (k, v) other ->
  dict_get (dict_update d other) k = Some v.
Proof.
  unfold dict_update.
  revert d; induction other as [|[k0 v0] other IH]; intros d Hnd Hin; simpl in *.
  - contradiction.
  - inversion Hnd as [|? ? Hk0 Hnd']; subst.
    destruct Hin as [Heq|Hin].
    + inversion Heq; subst.
      fold (dict_update (dict_setitem d k v) other).
      rewrite dict_get_update_other by exact Hk0.
      rewrite dict_get_setitem, String.eqb_refl. reflexivity.
    + apply IH; assumption.
Qed.

End Dict.

(** ** The tag store *)

Lemma append_tag_tags (b : OsmGeometry.t) (kv : string * pyvalue) :
  ~ In (fst kv) (keys (OsmGeometry.tags b)) ->
  OsmGeometry.tags (OsmGeometry.append_tag b kv)
    = (OsmGeometry.tags b ++ non_empty_tags [kv])%list.
Proof.
  intros Hk. unfold OsmGeometry.append_tag, non_empty_tags; simpl.
  destruct (snd kv) as [|s]; simpl.
  - rewrite app_nil_r; reflexivity.
  - destruct (String.eqb s EmptyString); simpl.
    + rewrite app_nil_r; reflexivity.
    + unfold dict_update; simpl. apply dict_setitem_fresh; exact Hk.
Qed.

Lemma non_empty_tags_keys (candidates : dict pyvalue) (k : string) :
  In k (keys (non_empty_tags candidates)) -> In k (keys candidates).
Proof.
  induction candidates as [|[k0 v0] cs IH]; simpl; [tauto|].
  unfold non_empty_tags in *; simpl. unfold keys in *.
  rewrite map_app, in_app_iff. intros [Hin|Hin].
  - left. destruct v0 as [|s]; simpl in Hin; [contradiction|].
    destruct (String.eqb s EmptyString); simpl in Hin; [contradiction|].
    destruct Hin as [Hin|[]]. exact Hin.
  - right. apply IH; exact Hin.
Qed.

Lemma non_empty_tags_cons (kv : string * pyvalue) (cs : dict pyvalue) :
  non_empty_tags (kv :: cs) = (non_empty_tags [kv] ++ non_empty_tags cs)%list.
Proof. unfold non_empty_tags; simpl. rewrite app_nil_r. reflexivity. Qed.

Lemma append_non_empty_tags_tags (candidates : dict pyvalue) (b : OsmGeometry.t) :
  NoDup (keys candidates) ->
  (forall k, In k (keys candidates) -> ~ In k (keys (OsmGeometry.tags b))) ->
  OsmGeometry.tags (OsmGeometry._append_non_empty_tags b candidates)
    = (OsmGeometry.tags b ++ non_empty_tags candidates)%list.
Proof.
  unfold OsmGeometry._append_non_empty_tags.
  revert b; induction candidates as [|kv cs IH]; intros b Hnd Hfresh.
  - simpl. rewrite app_nil_r; reflexivity.
  - cbn [fold_left].
    inversion Hnd as [|? ? Hkv Hnd']; subst.
    assert (Hb : ~ In (fst kv) (keys (OsmGeometry.tags b)))
      by (apply Hfresh; left; reflexivity).
    rewrite IH.
    + rewrite (append_tag_tags b kv Hb).
      rewrite (non_empty_tags_cons kv cs), app_assoc. reflexivity.
    + exact Hnd'.
    + intros k Hk. rewrite (append_tag_tags b kv Hb).
      unfold keys. rewrite map_app, in_app_iff. intros [Hin|Hin].
      * apply (Hfresh k); [right; exact Hk | exact Hin].
      * apply (non_empty_tags_keys [kv]) in Hin. simpl in Hin.
        destruct Hin as [<-|[]]. apply Hkv; exact Hk.
Qed.

Lemma construct_tags (c : ctor) (ctr : OsmId.t) :
  object_tags (fst (construct c ctr))
    = OsmGeometry.tags
        (OsmGeometry._append_non_empty_tags (fst (OsmGeometry.init ctr)) (ctor_tags c)).
Proof. destruct c; reflexivity. Qed.

(** C6: an object constructed with a candidate tag mapping stores exactly
    the pairs of the mapping whose value is truthy (a non-empty string), each
    key with its value in a list of one; so the candidates name = Main St,
    note = empty string, ref = None leave the one tag name = [Main St]. *)
Theorem stored_tags_spec :
  (forall (c : ctor) (ctr : OsmId.t),
     NoDup (keys (ctor_tags c)) ->
     object_tags (fst (construct c ctr)) = non_empty_tags (ctor_tags c)
     /\ forall k vl, In (k, vl) (object_tags (fst (construct c ctr))) <->
          exists s, vl = [s] /\ In (k, PyStr s) (ctor_tags c) /\ truthy (PyStr s) = true)
  /\ (forall (x y : float) (ctr : OsmId.t),
     let candidates := [("name", PyStr "Main St"); ("note", PyStr EmptyString);
                        ("ref", PyNone)] in
     object_tags (fst (construct (NewNode x y candidates) ctr)) = [("name", ["Main St"])]
     /\ object_tags (fst (construct (NewWay candidates) ctr)) = [("name", ["Main St"])]
     /\ object_tags (fst (construct (NewRelation candidates) ctr))
        = [("name", ["Main St"])]).
Proof.
  split.
  - intros c ctr Hnd.
    assert (Heq : object_tags (fst (construct c ctr)) = non_empty_tags (ctor_tags c)).
    { rewrite construct_tags, append_non_empty_tags_tags.
      - reflexivity.
      - exact Hnd.
      - intros k _ []. }
    split; [exact Heq|]. rewrite Heq. clear Heq Hnd.
    intros k vl. unfold non_empty_tags. rewrite in_flat_map. split.
    + intros [[k0 v0] [Hin Hkv]]. simpl in Hkv.
      destruct v0 as [|s]; [contradiction|].
      destruct (String.eqb s EmptyString) eqn:Hs; [contradiction|].
      destruct Hkv as [Hkv|[]]. inversion Hkv; subst.
      exists s. simpl. rewrite Hs. repeat split. exact Hin.
    + intros [s [-> [Hin Ht]]]. exists (k, PyStr s). split; [exact Hin|].
      simpl in *. destruct (String.eqb s EmptyString); [discriminate|].
      left; reflexivity.
  - intros x y ctr candidates. repeat split; reflexivity.
Qed.

(** C6 at the candidates of the example, for a path. *)
Lemma stored_tags_spec_witness :
  object_tags
    (fst (construct
            (NewWay [("name", PyStr "Main St"); ("note", PyStr EmptyString);
                     ("ref", PyNone)]) OsmId.initial))
  = [("name", ["Main St"])].
Proof.
  refine (eq_trans (proj1 (proj1 stored_tags_spec
            (NewWay [("name", PyStr "Main St"); ("note", PyStr EmptyString);
                     ("ref", PyNone)]) OsmId.initial _)) eq_refl).
  repeat constructor; simpl; intuition discriminate.
Defined.

(** ** The role of a member *)

Lemma find_filter {A : Type} (f : A -> bool) (l : list A) :
  find f l = hd_error (filter f l).
Proof.
  induction l as [|a l IH]; simpl; [reflexivity|].
  destruct (f a); [reflexivity | exact IH].
Qed.

(** C8: [get_member_role] never fails; it returns the role of the first
    pair of the member list whose entity is the one asked for, which is the
    empty string when that role is empty, and the empty string when no pair
    has that entity.  With the members (X, outer) and (Y, inner) the role of
    X is outer and the role of an entity Z that is neither is empty. *)
Theorem get_member_role_spec :
  (forall (r : OsmRelation.t) (member : addr),
     OsmRelation.get_member_role r member
       = Ok (role_of_first_match (OsmRelation.members r) member))
  /\ (forall (r : OsmRelation.t) (member : addr),
     (forall role, ~ In (member, role) (OsmRelation.members r)) ->
     OsmRelation.get_member_role r member = Ok EmptyString)
  /\ (forall (b : OsmGeometry.t) (X Y Z : addr),
     let r := OsmRelation.mk b [(X, "outer"); (Y, "inner")] in
     OsmRelation.get_member_role r X = Ok "outer"
     /\ (Z <> X -> Z <> Y -> OsmRelation.get_member_role r Z = Ok EmptyString)).
Proof.
  assert (Hmain : forall r member,
     OsmRelation.get_member_role r member
       = Ok (role_of_first_match (OsmRelation.members r) member)).
  { intros r member.
    unfold OsmRelation.get_member_role, role_of_first_match.
    rewrite find_filter.
    destruct (filter (fun m => Nat.eqb (fst m) member) (OsmRelation.members r))
      as [|[a role] rest]; simpl; [reflexivity|].
    destruct (String.eqb_spec role EmptyString) as [->|Hrole]; simpl.
    - destruct (OsmRelation.any_role _); reflexivity.
    - reflexivity. }
  split; [exact Hmain|]. split.
  - intros r member Hnot. rewrite Hmain. unfold role_of_first_match.
    destruct (find _ _) as [[a role]|] eqn:Hfind; [|reflexivity].
    apply find_some in Hfind. destruct Hfind as [Hin Heq].
    simpl in Heq. apply Nat.eqb_eq in Heq. subst a.
    exfalso. exact (Hnot role Hin).
  - intros b X Y Z r. split.
    + rewrite Hmain. unfold role_of_first_match; simpl.
      rewrite Nat.eqb_refl. reflexivity.
    + intros HX HY. rewrite Hmain. unfold role_of_first_match; simpl.
      destruct (Nat.eqb_spec X Z) as [Heq|_]; [congruence|].
      destruct (Nat.eqb_spec Y Z) as [Heq|_]; [congruence|]. reflexivity.
Qed.

(** C8 at a relation with members 0 (outer) and 1 (inner), asked for 2. *)
Lemma get_member_role_spec_witness :
  OsmRelation.get_member_role
    (OsmRelation.mk (OsmGeometry.mk (-3) [] []) [(0%nat, "outer"); (1%nat, "inner")])
    2%nat = Ok EmptyString.
Proof.
  apply (proj1 (proj2 get_member_role_spec)).
  intros role [H|[H|[]]]; discriminate H.
Defined.

(** ** The value lists of the stored tags *)

Lemma one_value_singleton (v : string) : one_value [v].
Proof. split; [reflexivity|]. exists v. split; reflexivity. Qed.

Lemma dict_setitem_Forall {V : Type} (Q : V -> Prop) (d : dict V) (k : string) (v : V) :
  Forall (fun kv => Q (snd kv)) d -> Q v ->
  Forall (fun kv => Q (snd kv)) (dict_setitem d k v).
Proof.
  intros Hd Hv. induction Hd as [|[k' v'] d Hkv Hd IH]; simpl.
  - constructor; [exact Hv | constructor].
  - destruct (String.eqb k k'); constructor; assumption.
Qed.

Lemma append_tag_one_value (b : OsmGeometry.t) (kv : string * pyvalue) :
  Forall (fun kv => one_value (snd kv)) (OsmGeometry.tags b) ->
  Forall (fun kv => one_value (snd kv)) (OsmGeometry.tags (OsmGeometry.append_tag b kv)).
Proof.
  intros Hb. unfold OsmGeometry.append_tag.
  destruct (snd kv) as [|s]; [exact Hb|].
  destruct (truthy (PyStr s)); [|exact Hb].
  unfold dict_update; simpl.
  apply dict_setitem_Forall; [exact Hb | apply one_value_singleton].
Qed.

Lemma append_non_empty_tags_one_value (candidates : dict pyvalue) (b : OsmGeometry.t) :
  Forall (fun kv => one_value (snd kv)) (OsmGeometry.tags b) ->
  Forall (fun kv => one_value (snd kv))
    (OsmGeometry.tags (OsmGeometry._append_non_empty_tags b candidates)).
Proof.
  unfold OsmGeometry._append_non_empty_tags.
  revert b; induction candidates as [|kv cs IH]; intros b Hb; simpl.
  - exact Hb.
  - apply IH, append_tag_one_value, Hb.
Qed.

Lemma construct_one_value (c : ctor) (ctr : OsmId.t) :
  tags_one_value (fst (construct c ctr)).
Proof.
  unfold tags_one_value. rewrite construct_tags.
  apply append_non_empty_tags_one_value. constructor.
Qed.

Lemma update_at_tags (f : object -> object) (h : store) (a : addr) :
  (forall o, object_tags (f o) = object_tags o) ->
  map object_tags (update_at h a f) = map object_tags h.
Proof.
  intros Hf. revert a; induction h as [|o h IH]; intros a; simpl.
  - reflexivity.
  - destruct a as [|a]; simpl; [rewrite Hf | rewrite IH]; reflexivity.
Qed.

Lemma with_base_tags (o : object) (b : OsmGeometry.t) :
  object_tags (with_base o b) = OsmGeometry.tags b.
Proof. destruct o; reflexivity. Qed.

(** What an operation does to the tags in the store: a constructor call
    adds the tags of the new object after the others, and nothing else
    changes any. *)
Lemma exec_tags (o : op) (w : world) :
  map object_tags (heap (exec o w))
    = (map object_tags (heap w)
       ++ match o with
          | Construct c => [object_tags (fst (construct c (ids w)))]
          | _ => []
          end)%list.
Proof.
  destruct o as [c|self parent|self parent|start_id is_positive]; simpl.
  - unfold new. destruct (construct c (ids w)) as [ob ctr']; simpl.
    rewrite map_app. reflexivity.
  - rewrite app_nil_r. apply update_at_tags.
    intros ob. rewrite with_base_tags. reflexivity.
  - rewrite app_nil_r. apply update_at_tags.
    intros ob. rewrite with_base_tags. reflexivity.
  - rewrite app_nil_r. reflexivity.
Qed.

Lemma exec_one_value (o : op) (w : world) :
  Forall tags_one_value (heap w) -> Forall tags_one_value (heap (exec o w)).
Proof.
  unfold tags_one_value. intros Hw.
  rewrite <- (Forall_map object_tags
                (fun t => Forall (fun kv => one_value (snd kv)) t)) in *.
  rewrite exec_tags. apply Forall_app. split; [exact Hw|].
  destruct o; try constructor; [|constructor].
  apply construct_one_value.
Qed.

Lemma run_one_value (ops : list op) (w : world) :
  Forall tags_one_value (heap w) -> Forall tags_one_value (heap (run ops w)).
Proof.
  unfold run. revert w; induction ops as [|o ops IH]; intros w Hw; simpl.
  - exact Hw.
  - apply IH, exec_one_value, Hw.
Qed.

(** C10: in every state the operations of the module reach from an empty
    store (constructor calls, [addparent], [removeparent], [set_id], in any
    order), every stored tag of every object has a value list of exactly one
    value, and the comma-join of the serialisation gives that one value; and
    no operation changes the tags of an object that is already in the
    store. *)
Theorem tag_lists_have_one_value :
  (forall (ctr : OsmId.t) (ops : list op),
     Forall tags_one_value (heap (run ops (mk_world ctr []))))
  /\ (forall (o : op) (w : world),
     map object_tags (firstn (List.length (heap w)) (heap (exec o w)))
       = map object_tags (heap w))
  /\ (forall (kv : string * list string),
     one_value (snd kv) ->
     exists v, snd kv = [v]
       /\ OsmGeometry.tag_element kv = Element "tag" [("k", fst kv); ("v", v)] []).
Proof.
  split; [|split].
  - intros ctr ops. apply run_one_value. constructor.
  - intros o w. rewrite <- firstn_map, exec_tags.
    rewrite <- (length_map object_tags (heap w)).
    rewrite firstn_app, Nat.sub_diag, firstn_all. simpl. apply app_nil_r.
  - intros [k vl] [_ [v [Hvl Hjoin]]]. simpl in *. exists v. split; [exact Hvl|].
    unfold OsmGeometry.tag_element; simpl. rewrite Hjoin. reflexivity.
Qed.

(** C10 at the stored tag name = [Main St]. *)
Lemma tag_lists_have_one_value_witness :
  exists v, snd ("name", ["Main St"]) = [v]
    /\ OsmGeometry.tag_element ("name", ["Main St"])
       = Element "tag" [("k", "name"); ("v", v)] [].
Proof.
  apply (proj2 (proj2 tag_lists_have_one_value) ("name", ["Main St"])).
  apply one_value_singleton.
Defined.

(** ** Stripping *)

Lemma append_empty_r (s : string) : s ++ EmptyString = s.
Proof. induction s as [|c s IH]; simpl; [|rewrite IH]; reflexivity. Qed.

Lemma append_assoc (a b c : string) : (a ++ b) ++ c = a ++ (b ++ c).
Proof. induction a as [|x a IH]; simpl; [|rewrite IH]; reflexivity. Qed.

Lemma length_append (a b : string) :
  String.length (a ++ b) = (String.length a + String.length b)%nat.
Proof. induction a as [|x a IH]; simpl; [|rewrite IH]; reflexivity. Qed.

Lemma all_in_append (chars a b : string) :
  all_in chars (a ++ b) = all_in chars a && all_in chars b.
Proof.
  induction a as [|x a IH]; simpl; [reflexivity|].
  rewrite IH, andb_assoc. reflexivity.
Qed.

Lemma lstrip_spec (chars s : string) :
  exists l,
    s = l ++ lstrip chars s
    /\ all_in chars l = true
    /\ not_in_chars chars (first_char (lstrip chars s)).
Proof.
  induction s as [|c s [l [Hs [Hl Hf]]]]; simpl.
  - exists EmptyString. repeat split.
  - destruct (char_in c chars) eqn:Hc.
    + exists (String c l). simpl. rewrite Hc, Hl, <- Hs. repeat split. exact Hf.
    + exists EmptyString. simpl. repeat split. exact Hc.
Qed.

Lemma rstrip_spec (chars s : string) :
  exists r,
    s = rstrip chars s ++ r
    /\ all_in chars r = true
    /\ not_in_chars chars (last_char (rstrip chars s))
    /\ (not_in_chars chars (first_char s) ->
        not_in_chars chars (first_char (rstrip chars s))).
Proof.
  induction s as [|c s [r [Hs [Hr [Hl _]]]]]; simpl.
  - exists EmptyString. repeat split.
  - destruct (rstrip chars s) as [|d t] eqn:Ht.
    + simpl in Hs. subst r. destruct (char_in c chars) eqn:Hc.
      * exists (String c s). simpl. rewrite Hc, Hr. repeat split.
      * exists s. simpl. repeat split; try assumption. intros _; exact Hc.
    + exists r. simpl in *. rewrite <- Hs. repeat split; try assumption.
      intros H; exact H.
Qed.

Lemma strip_spec (chars s : string) : stripped_of chars s (strip chars s).
Proof.
  unfold stripped_of, strip.
  destruct (lstrip_spec chars s) as [l [Hs [Hl Hf]]].
  destruct (rstrip_spec chars (lstrip chars s)) as [r [Hs' [Hr [Hlast Hfirst]]]].
  exists l, r. repeat split; try assumption.
  - rewrite <- Hs'. exact Hs.
  - apply Hfirst, Hf.
Qed.

(** ** Fixed notation *)

Lemma string_of_uint_digits (d : Decimal.uint) :
  all_in digits (NilEmpty.string_of_uint d) = true.
Proof. induction d; simpl; try rewrite IHd; reflexivity. Qed.

Lemma format_d_nonneg (z : Z) :
  0 <= z -> format_d z <> EmptyString /\ all_in digits (format_d z) = true.
Proof.
  intros Hz. unfold format_d.
  destruct z as [|p|p]; [| |lia]; simpl.
  - split; [discriminate | reflexivity].
  - unfold NilZero.string_of_uint.
    destruct (Pos.to_uint p) as [|u|u|u|u|u|u|u|u|u|u];
      (split; [simpl; discriminate | try reflexivity]);
      apply string_of_uint_digits.
Qed.

Lemma digit_char_in (d : Z) : 0 <= d < 10 -> char_in (digit_char d) digits = true.
Proof.
  intros Hd.
  assert (H : d = 0 \/ d = 1 \/ d = 2 \/ d = 3 \/ d = 4 \/ d = 5 \/ d = 6 \/ d = 7
              \/ d = 8 \/ d = 9) by lia.
  repeat (destruct H as [->|H]; [reflexivity|]). subst d; reflexivity.
Qed.

Lemma frac_digits_spec (p : nat) (r : Z) :
  String.length (frac_digits p r) = p /\ all_in digits (frac_digits p r) = true.
Proof.
  revert r; induction p as [|p IH]; intros r; cbn [frac_digits].
  - split; reflexivity.
  - destruct (IH (r / 10)) as [Hlen Hdig].
    rewrite length_append, all_in_append, Hlen, Hdig.
    cbn [String.length all_in andb].
    rewrite digit_char_in by (apply Z.mod_pos_bound; lia).
    split; [lia | reflexivity].
Qed.

Lemma round_half_even_nonneg (num den : Z) :
  0 <= num -> 0 < den -> 0 <= round_half_even num den.
Proof.
  intros Hn Hd. unfold round_half_even.
  assert (Hq : 0 <= num / den) by (apply Z.div_pos; lia).
  destruct (2 * (num mod den) ?= den); [destruct (Z.even _)| |]; lia.
Qed.

Lemma scaled_nonneg (m : positive) (e : Z) (p : nat) : 0 <= scaled m e p.
Proof.
  unfold scaled.
  assert (H10 : 0 < 10 ^ Z.of_nat p) by (apply Z.pow_pos_nonneg; lia).
  destruct (Z.leb_spec 0 e) as [He|He].
  - assert (H2 : 0 < 2 ^ e) by (apply Z.pow_pos_nonneg; lia). nia.
  - apply round_half_even_nonneg; [nia|]. apply Z.pow_pos_nonneg; lia.
Qed.

Lemma fixed_digits_notation (s : bool) (n : Z) (p : nat) :
  0 <= n -> fixed_notation p (sign_str s ++ fixed_digits n p).
Proof.
  intros Hn. unfold fixed_notation, fixed_digits.
  assert (H10 : 0 < 10 ^ Z.of_nat p) by (apply Z.pow_pos_nonneg; lia).
  assert (Hq : 0 <= n / 10 ^ Z.of_nat p) by (apply Z.div_pos; lia).
  destruct (format_d_nonneg _ Hq) as [Hne Hdig].
  exists (sign_str s), (format_d (n / 10 ^ Z.of_nat p)),
         (match p with O => EmptyString | S _ => frac_digits p (n mod 10 ^ Z.of_nat p) end).
  repeat split; try assumption.
  - destruct p; reflexivity.
  - destruct s; [right | left]; reflexivity.
  - destruct p; [reflexivity | apply frac_digits_spec].
  - destruct p; [reflexivity | apply frac_digits_spec].
Qed.

Lemma format_f_notation (p : nat) (x : float) :
  is_finite x = true -> fixed_notation p (format_f p x).
Proof.
  destruct x as [s|s| |s m e]; simpl; intros H; try discriminate.
  - apply fixed_digits_notation; lia.
  - apply fixed_digits_notation, scaled_nonneg.
Qed.

(** ** The point stops the stripping *)

Lemma lstrip_stop (chars a b : string) (c : ascii) :
  char_in c chars = false ->
  lstrip chars (a ++ String c b) = lstrip chars a ++ String c b.
Proof.
  intros Hc. induction a as [|x a IH]; simpl.
  - rewrite Hc. reflexivity.
  - destruct (char_in x chars); [exact IH | reflexivity].
Qed.

Lemma rstrip_cons (chars s : string) (x : ascii) :
  rstrip chars (String x s)
    = match rstrip chars s with
      | EmptyString => if char_in x chars then EmptyString else String x EmptyString
      | String y t => String x (String y t)
      end.
Proof. reflexivity. Qed.

Lemma rstrip_stop (chars a b : string) (c : ascii) :
  char_in c chars = false ->
  rstrip chars (a ++ String c b) = a ++ String c (rstrip chars b).
Proof.
  intros Hc. induction a as [|x a IH].
  - simpl. rewrite Hc. destruct (rstrip chars b); reflexivity.
  - change (String x a ++ String c b) with (String x (a ++ String c b)).
    rewrite rstrip_cons, IH. destruct a; reflexivity.
Qed.

Lemma strip_stop (chars a b : string) (c : ascii) :
  char_in c chars = false ->
  strip chars (a ++ String c b) = lstrip chars a ++ String c (rstrip chars b).
Proof.
  intros Hc. unfold strip.
  rewrite (lstrip_stop chars a b c Hc). apply rstrip_stop; exact Hc.
Qed.

Lemma rstrip_all_in (chars s : string) :
  all_in chars s = true -> rstrip chars s = EmptyString.
Proof.
  induction s as [|c s IH]; simpl; [reflexivity|].
  intros H. apply andb_true_iff in H. destruct H as [Hc Hs].
  rewrite (IH Hs), Hc. reflexivity.
Qed.

Lemma frac_digits_zero (p : nat) : all_in "0" (frac_digits p 0) = true.
Proof.
  induction p as [|p IH]; cbn [frac_digits]; [reflexivity|].
  change (0 / 10) with 0. rewrite all_in_append, IH. reflexivity.
Qed.

(** ** What lxml accepts *)

Lemma char_in_all_in (c : ascii) (a b : string) :
  all_in b a = true -> char_in c a = true -> char_in c b = true.
Proof.
  induction a as [|d a IH]; cbn [all_in char_in]; [discriminate|].
  intros Hab Hc. apply andb_true_iff in Hab. destruct Hab as [Hd Ha].
  destruct (Ascii.eqb_spec c d) as [->|_]; [exact Hd | apply IH; assumption].
Qed.

(** A text made of the characters of [a] is made of those of [b] when [a]
    is. *)
Lemma all_in_mono (b a s : string) :
  all_in b a = true -> all_in a s = true -> all_in b s = true.
Proof.
  intros Hab. induction s as [|c s IH]; cbn [all_in]; [reflexivity|].
  intros H. apply andb_true_iff in H. destruct H as [Hc Hs].
  rewrite (char_in_all_in c a b Hab Hc), (IH Hs). reflexivity.
Qed.

Lemma all_in_lstrip (allowed chars s : string) :
  all_in allowed s = true -> all_in allowed (lstrip chars s) = true.
Proof.
  induction s as [|c s IH]; cbn [all_in lstrip]; [reflexivity|].
  intros H. destruct (char_in c chars).
  - apply IH. apply andb_true_iff in H. apply H.
  - exact H.
Qed.

Lemma all_in_rstrip (allowed chars s : string) :
  all_in allowed s = true -> all_in allowed (rstrip chars s) = true.
Proof.
  induction s as [|c s IH]; [reflexivity|]. cbn [all_in]. rewrite rstrip_cons.
  intros H. apply andb_true_iff in H. destruct H as [Hc Hs]. specialize (IH Hs).
  destruct (rstrip chars s) as [|d t].
  - destruct (char_in c chars); [reflexivity|]. cbn [all_in]. rewrite Hc. reflexivity.
  - cbn [all_in] in *. rewrite Hc. exact IH.
Qed.

Lemma all_in_strip (allowed chars s : string) :
  all_in allowed s = true -> all_in allowed (strip chars s) = true.
Proof. intros H. apply all_in_rstrip, all_in_lstrip, H. Qed.

Lemma format_d_int_chars (z : Z) : all_in int_chars (format_d z) = true.
Proof.
  unfold format_d. destruct z as [|p|p]; simpl; [reflexivity| |].
  - unfold NilZero.string_of_uint.
    destruct (Pos.to_uint p) eqn:Hp; try reflexivity; rewrite <- Hp;
      apply (all_in_mono int_chars digits); try reflexivity;
      apply string_of_uint_digits.
  - apply (all_in_mono int_chars digits); [reflexivity|].
    unfold NilZero.string_of_uint.
    destruct (Pos.to_uint p) eqn:Hp; try reflexivity; rewrite <- Hp;
      apply string_of_uint_digits.
Qed.

Lemma format_f_chars (p : nat) (x : float) : all_in float_chars (format_f p x) = true.
Proof.
  assert (Hfix : forall (s : bool) (n : Z),
            all_in float_chars (sign_str s ++ fixed_digits n p) = true).
  { intros s n. unfold fixed_digits. rewrite !all_in_append.
    rewrite (all_in_mono float_chars int_chars _ eq_refl (format_d_int_chars _)).
    assert (Hs : all_in float_chars (sign_str s) = true) by (destruct s; reflexivity).
    rewrite Hs. destruct p as [|p]; [reflexivity|].
    rewrite all_in_append.
    rewrite (all_in_mono float_chars digits _ eq_refl (proj2 (frac_digits_spec _ _))).
    reflexivity. }
  destruct x as [s|s| |s m e]; cbn [format_f].
  - apply Hfix.
  - destruct s; reflexivity.
  - reflexivity.
  - apply Hfix.
Qed.

Lemma plain_not_control (c : ascii) : is_plain c = true -> is_control c = false.
Proof.
  unfold is_plain, is_control. destruct (is_line_space c); cbn [negb].
  - intros _. apply andb_false_r.
  - rewrite orb_false_r, andb_true_r. intros H.
    apply andb_true_iff in H. destruct H as [H _].
    apply Nat.leb_le in H. apply Nat.ltb_ge. exact H.
Qed.

Lemma valid_text_plain (lx : lxml) (s : string) :
  forall_chars is_plain s = true -> valid_text lx s = true.
Proof.
  intros Hs. unfold valid_text.
  assert (Hc : exists_chars is_control s = false).
  { induction s as [|c s IH]; [reflexivity|]. cbn [forall_chars exists_chars] in *.
    apply andb_true_iff in Hs. destruct Hs as [Hc Hs].
    rewrite (plain_not_control c Hc), (IH Hs). reflexivity. }
  rewrite Hc, Hs. reflexivity.
Qed.

Lemma all_in_forall_chars (p : ascii -> bool) (allowed s : string) :
  forall_chars p allowed = true -> all_in allowed s = true ->
  forall_chars p s = true.
Proof.
  intros Ha. induction s as [|c s IH]; cbn [all_in forall_chars]; [reflexivity|].
  intros H. apply andb_true_iff in H. destruct H as [Hc Hs]. rewrite (IH Hs).
  rewrite andb_true_r. clear IH Hs.
  induction allowed as [|d allowed IH]; cbn [char_in forall_chars] in *; [discriminate|].
  apply andb_true_iff in Ha. destruct Ha as [Hd Ha].
  destruct (Ascii.eqb_spec c d) as [->|_]; [exact Hd | apply IH; assumption].
Qed.

Lemma all_in_plain (allowed s : string) :
  forall_chars is_plain allowed = true -> all_in allowed s = true ->
  forall_chars is_plain s = true.
Proof. apply all_in_forall_chars. Qed.

(** lxml accepts the texts this module makes itself: integers and
    formatted floats. *)
Lemma valid_text_format_d (lx : lxml) (z : Z) : valid_text lx (format_d z) = true.
Proof.
  apply valid_text_plain, (all_in_plain int_chars); [reflexivity|].
  apply format_d_int_chars.
Qed.

Lemma valid_text_formatted (lx : lxml) (p : nat) (x : float) :
  valid_text lx (strip "0" (format_f p x)) = true.
Proof.
  apply valid_text_plain, (all_in_plain float_chars); [reflexivity|].
  apply all_in_strip, format_f_chars.
Qed.

Lemma format_stripped_ok (significant_digits : Z) (value : float) :
  0 <= significant_digits <= max_precision ->
  format_stripped significant_digits value
    = Ok (strip "0" (format_f (Z.to_nat significant_digits) value)).
Proof.
  intros H. unfold format_stripped.
  destruct (Z.ltb_spec significant_digits 0) as [Hlt|_]; [lia|].
  destruct (Z.ltb_spec max_precision significant_digits) as [Hgt|_]; [lia|].
  reflexivity.
Qed.

Lemma format_stripped_raises (significant_digits : Z) (value : float) :
  significant_digits < 0 \/ max_precision < significant_digits ->
  format_stripped significant_digits value = Raise ValueError.
Proof.
  intros H. unfold format_stripped.
  destruct (Z.ltb_spec significant_digits 0) as [_|Hge]; [reflexivity|].
  destruct (Z.ltb_spec max_precision significant_digits) as [_|Hle]; [reflexivity|].
  lia.
Qed.

Lemma etree_Element_ok (lx : lxml) (tag : string) (attrib : dict string) :
  valid_name lx tag = true -> attributes_accepted lx attrib = true ->
  etree_Element lx tag attrib = Ok (Element tag attrib []).
Proof.
  intros Ht Ha. unfold etree_Element. unfold attributes_accepted in Ha.
  rewrite Ht, Ha. reflexivity.
Qed.

Lemma etree_Element_inv (lx : lxml) (tag : string) (attrib : dict string) (e : element) :
  etree_Element lx tag attrib = Ok e ->
  e = Element tag attrib [] /\ attributes_accepted lx attrib = true.
Proof.
  unfold etree_Element, attributes_accepted.
  destruct (valid_name lx tag); simpl; [|discriminate].
  destruct (forallb _ attrib); [|discriminate].
  intros H. inversion H. split; reflexivity.
Qed.

Lemma attributes_accepted_setitem (lx : lxml) (d : dict string) (k v : string) :
  attributes_accepted lx d = true ->
  valid_name lx k = true -> valid_text lx v = true ->
  attributes_accepted lx (dict_setitem d k v) = true.
Proof.
  unfold attributes_accepted. intros Hd Hk Hv.
  induction d as [|[k' v'] d IH]; cbn [dict_setitem forallb fst snd] in *.
  - rewrite Hk, Hv. reflexivity.
  - apply andb_true_iff in Hd. destruct Hd as [Hkv Hd].
    destruct (String.eqb_spec k k') as [<-|_]; cbn [forallb fst snd].
    + rewrite Hk, Hv, Hd. reflexivity.
    + rewrite Hkv, (IH Hd). reflexivity.
Qed.

Lemma attributes_accepted_update (lx : lxml) (other d : dict string) :
  attributes_accepted lx d = true -> attributes_accepted lx other = true ->
  attributes_accepted lx (dict_update d other) = true.
Proof.
  unfold dict_update.
  revert d; induction other as [|[k v] other IH]; intros d Hd Ho; [exact Hd|].
  cbn [fold_left fst snd]. unfold attributes_accepted in Ho. cbn [forallb fst snd] in Ho.
  apply andb_true_iff in Ho. destruct Ho as [Hkv Ho].
  apply andb_true_iff in Hkv. destruct Hkv as [Hk Hv].
  apply IH; [apply attributes_accepted_setitem; assumption | exact Ho].
Qed.

(** The loop over the tags appends one tag element per stored tag, in the
    order of the tags, when lxml accepts their texts. *)
Lemma append_tags_ok (lx : lxml) (b : OsmGeometry.t) (e : element) :
  tags_accepted lx (OsmGeometry.tags b) = true ->
  OsmGeometry.append_tags lx b e
    = Ok (Element (element_tag e) (element_attrib e)
            (element_children e ++ map OsmGeometry.tag_element (OsmGeometry.tags b))).
Proof.
  unfold OsmGeometry.append_tags, tags_accepted.
  revert e; induction (OsmGeometry.tags b) as [|[k vl] l IH]; intros [t a c] H.
  - simpl. rewrite app_nil_r. reflexivity.
  - cbn [forallb fst snd] in H. apply andb_true_iff in H. destruct H as [Hkv Hl].
    apply andb_true_iff in Hkv. destruct Hkv as [Hk Hv].
    cbn [OsmGeometry.append_tag_elements].
    rewrite etree_Element_ok;
      [| reflexivity
       | unfold attributes_accepted; cbn [forallb fst snd]; rewrite Hk, Hv; reflexivity].
    cbn [bind append]. rewrite (IH _ Hl). simpl. rewrite <- app_assoc. reflexivity.
Qed.

(** ** The markup of the elements *)

Lemma escape_markup_value (v : string) : escape v = markup_value v.
Proof.
  unfold markup_value. induction v as [|c v IH]; [reflexivity|].
  cbn [escape list_ascii_of_string map String.concat].
  assert (Hc : escape_char c
               = match entity_of c with Some e => e | None => String c EmptyString end).
  { unfold escape_char, entity_of.
    destruct c as [[] [] [] [] [] [] [] []]; reflexivity. }
  rewrite Hc, IH.
  destruct (list_ascii_of_string v) eqn:Hv.
  - destruct v; [|discriminate]. simpl. rewrite append_empty_r. reflexivity.
  - reflexivity.
Qed.

Lemma attr_text_markup (kv : string * string) : attr_text kv = markup_attribute kv.
Proof.
  unfold attr_text, markup_attribute, dquote. rewrite escape_markup_value. reflexivity.
Qed.

Lemma attrs_markup (attrib : dict string) :
  String.concat EmptyString (map attr_text attrib) = markup_attributes attrib.
Proof.
  unfold markup_attributes. f_equal. apply map_ext. exact attr_text_markup.
Qed.

Lemma tostring_childless (e : element) : childless e -> tostring e = child_markup e.
Proof.
  destruct e as [t a c]. unfold childless, child_markup, markup_empty. simpl.
  intros ->. rewrite attrs_markup. reflexivity.
Qed.

(** [tostring] gives the markup of an element whose children are
    childless. *)
Lemma tostring_markup (e : element) :
  Forall childless (element_children e) -> tostring e = markup_of e.
Proof.
  destruct e as [t a c]. unfold markup_of. cbn [element_children element_tag element_attrib].
  intros Hc. destruct c as [|c0 c].
  - apply (tostring_childless (Element t a [])). reflexivity.
  - unfold markup_parent. cbn [tostring]. fold tostring. rewrite attrs_markup.
    assert (Hm : map tostring (c0 :: c) = map child_markup (c0 :: c)).
    { apply map_ext_in. intros x Hx. apply tostring_childless.
      rewrite Forall_forall in Hc. apply Hc, Hx. }
    rewrite Hm. reflexivity.
Qed.

Lemma tag_elements_childless (tags : dict (list string)) :
  Forall childless (map OsmGeometry.tag_element tags).
Proof. apply Forall_forall. intros e He. apply in_map_iff in He.
  destruct He as [kv [<- _]]. reflexivity. Qed.

(** The markup of an element shows each of its attributes. *)
Lemma markup_attributes_contains (attrib : dict string) (kv : string * string) :
  In kv attrib ->
  exists before after,
    markup_attributes attrib = before ++ markup_attribute kv ++ after.
Proof.
  unfold markup_attributes.
  assert (Hcons : forall x l, String.concat EmptyString (x :: l)
                              = x ++ String.concat EmptyString l).
  { intros x [|y l]; simpl; [rewrite append_empty_r|]; reflexivity. }
  induction attrib as [|a attrib IH]; intros Hin; [contradiction|].
  rewrite map_cons, Hcons. destruct Hin as [->|Hin].
  - exists EmptyString, (String.concat EmptyString (map markup_attribute attrib)).
    reflexivity.
  - destruct (IH Hin) as [b [c Hbc]]. exists (markup_attribute a ++ b), c.
    rewrite Hbc, append_assoc. reflexivity.
Qed.

Lemma markup_of_contains (e : element) (kv : string * string) :
  In kv (element_attrib e) -> text_contains (markup_of e) (markup_attribute kv).
Proof.
  intros Hin. destruct (markup_attributes_contains _ kv Hin) as [b [c Hbc]].
  unfold text_contains, markup_of, markup_empty, markup_parent.
  destruct (element_children e) as [|c0 cs]; rewrite Hbc.
  - exists ("<" ++ element_tag e ++ b), (c ++ "/>").
    rewrite !append_assoc. reflexivity.
  - eexists ("<" ++ element_tag e ++ b), _.
    rewrite !append_assoc. reflexivity.
Qed.

Lemma dict_get_In {V : Type} (d : dict V) (k : string) (v : V) :
  dict_get d k = Some v -> In (k, v) d.
Proof.
  induction d as [|[k' v'] d IH]; simpl; [discriminate|].
  destruct (String.eqb_spec k k') as [->|_].
  - intros H. inversion H. left; reflexivity.
  - intros H. right. apply IH, H.
Qed.

(** ** The number a formatted text shows *)

Lemma digits_value_cons (c : ascii) (s : string) (acc : Z) :
  fold_left (fun acc c => 10 * acc + (Z.of_nat (nat_of_ascii c) - 48))
            (list_ascii_of_string (String c s)) acc
  = fold_left (fun acc c => 10 * acc + (Z.of_nat (nat_of_ascii c) - 48))
              (list_ascii_of_string s) (10 * acc + (Z.of_nat (nat_of_ascii c) - 48)).
Proof. reflexivity. Qed.

Lemma digits_value_from (s : string) (acc : Z) :
  fold_left (fun acc c => 10 * acc + (Z.of_nat (nat_of_ascii c) - 48))
            (list_ascii_of_string s) acc
  = acc * 10 ^ Z.of_nat (String.length s) + digits_value s.
Proof.
  unfold digits_value. revert acc. induction s as [|c s IH]; intros acc.
  - cbn [list_ascii_of_string fold_left String.length]. change (10 ^ Z.of_nat 0) with 1. lia.
  - rewrite !digits_value_cons, IH, (IH (10 * 0 + _)).
    cbn [String.length]. rewrite Nat2Z.inj_succ, Z.pow_succ_r by lia. ring.
Qed.

Lemma digits_value_append_from (a b : string) (acc : Z) :
  fold_left (fun acc c => 10 * acc + (Z.of_nat (nat_of_ascii c) - 48))
            (list_ascii_of_string (a ++ b)) acc
  = fold_left (fun acc c => 10 * acc + (Z.of_nat (nat_of_ascii c) - 48))
              (list_ascii_of_string b)
              (fold_left (fun acc c => 10 * acc + (Z.of_nat (nat_of_ascii c) - 48))
                         (list_ascii_of_string a) acc).
Proof.
  revert acc; induction a as [|c a IH]; intros acc; [reflexivity|].
  cbn [String.append]. rewrite !digits_value_cons. apply IH.
Qed.

Lemma digits_value_append (a b : string) :
  digits_value (a ++ b)
  = digits_value a * 10 ^ Z.of_nat (String.length b) + digits_value b.
Proof.
  unfold digits_value at 1. rewrite digits_value_append_from, digits_value_from.
  reflexivity.
Qed.

Lemma digit_char_value (d : Z) :
  0 <= d < 10 -> Z.of_nat (nat_of_ascii (digit_char d)) - 48 = d.
Proof.
  intros Hd. unfold digit_char. rewrite nat_ascii_embedding by lia. lia.
Qed.

Lemma frac_digits_value (p : nat) (r : Z) :
  digits_value (frac_digits p r) = r mod 10 ^ Z.of_nat p.
Proof.
  revert r; induction p as [|p IH]; intros r.
  - cbn [frac_digits]. change (10 ^ Z.of_nat 0) with 1. rewrite Z.mod_1_r. reflexivity.
  - cbn [frac_digits]. rewrite digits_value_append, IH.
    unfold digits_value at 1. rewrite digits_value_cons.
    cbn [list_ascii_of_string fold_left String.length].
    rewrite digit_char_value by (apply Z.mod_pos_bound; lia).
    change (Z.of_nat 1) with 1. change (10 ^ 1) with 10.
    rewrite (Nat2Z.inj_succ p), Z.pow_succ_r by lia.
    assert (H10 : 0 < 10 ^ Z.of_nat p) by (apply Z.pow_pos_nonneg; lia).
    rewrite (Z.rem_mul_r r 10 (10 ^ Z.of_nat p)) by lia.
    lia.
Qed.

Lemma uint_value_acc (d : Decimal.uint) (acc : positive) :
  fold_left (fun acc c => 10 * acc + (Z.of_nat (nat_of_ascii c) - 48))
            (list_ascii_of_string (NilEmpty.string_of_uint d)) (Z.pos acc)
  = Z.pos (Pos.of_uint_acc d acc).
Proof.
  revert acc; induction d; intros acc;
    cbn [NilEmpty.string_of_uint Pos.of_uint_acc];
    try rewrite digits_value_cons; try rewrite <- IHd; try reflexivity;
    apply f_equal;
    match goal with
    | |- context [Z.of_nat (nat_of_ascii ?c)] =>
        let v := eval vm_compute in (Z.of_nat (nat_of_ascii c)) in
        change (Z.of_nat (nat_of_ascii c)) with v
    end; lia.
Qed.

Lemma uint_value (d : Decimal.uint) :
  digits_value (NilEmpty.string_of_uint d) = Z.of_N (Pos.of_uint d).
Proof.
  unfold digits_value. induction d; cbn [NilEmpty.string_of_uint Pos.of_uint];
    try reflexivity; rewrite digits_value_cons;
    [exact IHd | change (Z.of_N (N.pos ?q)) with (Z.pos q);
                 rewrite <- uint_value_acc; reflexivity ..].
Qed.

(** The digits of ['%d'] denote the number. *)
Lemma format_d_value (z : Z) : 0 <= z -> digits_value (format_d z) = z.
Proof.
  intros Hz. unfold format_d. destruct z as [|p|p]; [reflexivity| |lia].
  cbn [Z.to_int NilZero.string_of_int]. unfold NilZero.string_of_uint.
  assert (H : digits_value (NilEmpty.string_of_uint (Pos.to_uint p)) = Z.pos p).
  { rewrite uint_value, DecimalPos.Unsigned.of_to. reflexivity. }
  destruct (Pos.to_uint p) eqn:Hp; exact H.
Qed.

Lemma round_half_even_nearest (num den : Z) :
  0 < den -> nearest_even num den (round_half_even num den).
Proof.
  intros Hd. unfold nearest_even, round_half_even.
  pose proof (Z.div_mod num den ltac:(lia)) as Hdm.
  pose proof (Z.mod_pos_bound num den Hd) as Hr.
  set (q := num / den) in *. set (r := num mod den) in *.
  destruct (Z.compare_spec (2 * r) den) as [He|Hl|Hg].
  - destruct (Z.even q) eqn:Hq.
    + split; [|intros _; exact Hq].
      replace (q * den - num) with (- r) by lia. lia.
    + split.
      * replace ((q + 1) * den - num) with (den - r) by lia. lia.
      * intros _. rewrite Z.even_add, Hq. reflexivity.
  - replace (q * den - num) with (- r) by lia. split; lia.
  - replace ((q + 1) * den - num) with (den - r) by lia. split; lia.
Qed.

Lemma scaled_rounds (s : bool) (m : positive) (e : Z) (p : nat) :
  rounds_to (S754_finite s m e) p (scaled m e p).
Proof.
  unfold rounds_to, scaled.
  destruct (Z.leb_spec 0 e) as [He|He].
  - rewrite (Z.max_l e 0), (Z.max_r (- e) 0) by lia.
    change (2 ^ 0) with 1. unfold nearest_even.
    replace (Z.pos m * 2 ^ e * 10 ^ Z.of_nat p * 1
             - Z.pos m * 10 ^ Z.of_nat p * 2 ^ e) with 0 by ring.
    split; [lia | intros H; discriminate H].
  - rewrite (Z.max_r e 0), (Z.max_l (- e) 0) by lia.
    change (2 ^ 0) with 1. rewrite Z.mul_1_r.
    apply round_half_even_nearest, Z.pow_pos_nonneg; lia.
Qed.

Lemma fixed_digits_renders (x : float) (n : Z) (p : nat) :
  0 <= n -> rounds_to x p n ->
  renders x p (sign_str (sign_bit x) ++ fixed_digits n p).
Proof.
  intros Hn Hr. unfold renders, fixed_digits.
  assert (H10 : 0 < 10 ^ Z.of_nat p) by (apply Z.pow_pos_nonneg; lia).
  assert (Hq : 0 <= n / 10 ^ Z.of_nat p) by (apply Z.div_pos; lia).
  destruct (format_d_nonneg _ Hq) as [Hne Hdig].
  exists (format_d (n / 10 ^ Z.of_nat p)),
         (match p with O => EmptyString | S _ => frac_digits p (n mod 10 ^ Z.of_nat p) end).
  assert (Hfp : String.length
                  (match p with O => EmptyString
                   | S _ => frac_digits p (n mod 10 ^ Z.of_nat p) end) = p).
  { destruct p; [reflexivity | apply frac_digits_spec]. }
  repeat split; try assumption.
  - destruct p; reflexivity.
  - destruct p; [reflexivity | apply frac_digits_spec].
  - rewrite digits_value_append, Hfp, format_d_value by exact Hq.
    replace (digits_value _) with (n mod 10 ^ Z.of_nat p).
    + rewrite Z.mul_comm, <- Z.div_mod by lia. exact Hr.
    + destruct p.
      * change (10 ^ Z.of_nat 0) with 1. rewrite Z.mod_1_r. reflexivity.
      * rewrite frac_digits_value. rewrite Z.mod_mod by lia. reflexivity.
Qed.

(** ['%.<p>f'] of a finite float is the float times [10^p], correctly
    rounded, in fixed notation. *)
Lemma format_f_renders (p : nat) (x : float) :
  is_finite x = true -> renders x p (format_f p x).
Proof.
  destruct x as [s|s| |s m e]; cbn [is_finite format_f]; intros H; try discriminate.
  - apply (fixed_digits_renders (S754_zero s)); [lia | reflexivity].
  - apply (fixed_digits_renders (S754_finite s m e));
      [apply scaled_nonneg | apply scaled_rounds].
Qed.

(** ** The serialised elements *)

Lemma succeeds_tostring (r : result element) :
  succeeds (xmlobject <- r ;; Ok (tostring xmlobject)) = succeeds r.
Proof. destruct r; reflexivity. Qed.

Lemma to_xml_markup (r : result element) (e : element) :
  r = Ok e -> Forall childless (element_children e) ->
  (xmlobject <- r ;; Ok (tostring xmlobject)) = Ok (markup_of e).
Proof. intros -> Hc. cbn [bind]. rewrite tostring_markup by exact Hc. reflexivity. Qed.

Lemma base_attrs_accepted (lx : lxml) (b : OsmGeometry.t) :
  attributes_accepted lx (OsmGeometry.xml_base_attrs b) = true.
Proof.
  unfold attributes_accepted, OsmGeometry.xml_base_attrs. cbn [forallb fst snd].
  rewrite valid_text_format_d. reflexivity.
Qed.

Lemma node_attrs_accepted (lx : lxml) (id : Z) (p : nat) (x y : float) :
  attributes_accepted lx
    [("visible", "true"); ("id", format_d id);
     ("lat", strip "0" (format_f p y)); ("lon", strip "0" (format_f p x))] = true.
Proof.
  unfold attributes_accepted. cbn [forallb fst snd].
  rewrite valid_text_format_d, !valid_text_formatted. reflexivity.
Qed.

(** [OsmBoundary.to_xml] for a precision in range. *)
Lemma boundary_to_element_ok (lx : lxml) (b : OsmBoundary.t) (sd : Z) :
  0 <= sd <= max_precision ->
  OsmBoundary.to_element lx b sd
  = Ok (Element "bounds"
          [("minlon", strip "0" (format_f (Z.to_nat sd) (OsmBoundary.minlon b)));
           ("minlat", strip "0" (format_f (Z.to_nat sd) (OsmBoundary.minlat b)));
           ("maxlon", strip "0" (format_f (Z.to_nat sd) (OsmBoundary.maxlon b)));
           ("maxlat", strip "0" (format_f (Z.to_nat sd) (OsmBoundary.maxlat b)))] []).
Proof.
  intros Hsd. unfold OsmBoundary.to_element.
  rewrite !format_stripped_ok by exact Hsd. cbn [bind].
  apply etree_Element_ok; [reflexivity|].
  unfold attributes_accepted. cbn [forallb fst snd].
  rewrite !valid_text_formatted. reflexivity.
Qed.

(** [OsmNode.to_xml] for a precision in range and texts lxml accepts. *)
Lemma node_to_element_ok (lx : lxml) (n : OsmNode.t) (attributes : dict string)
    (sd : Z) :
  0 <= sd <= max_precision ->
  attributes_accepted lx attributes = true ->
  tags_accepted lx (OsmGeometry.tags (OsmNode.base n)) = true ->
  OsmNode.to_element lx n attributes sd
  = Ok (Element "node"
          (dict_update
             [("visible", "true");
              ("id", format_d (OsmGeometry.id (OsmNode.base n)));
              ("lat", strip "0" (format_f (Z.to_nat sd) (OsmNode.y n)));
              ("lon", strip "0" (format_f (Z.to_nat sd) (OsmNode.x n)))] attributes)
          (map OsmGeometry.tag_element (OsmGeometry.tags (OsmNode.base n)))).
Proof.
  intros Hsd Ha Ht. unfold OsmNode.to_element.
  rewrite !format_stripped_ok by exact Hsd. cbn [bind].
  rewrite etree_Element_ok.
  - cbn [bind]. rewrite append_tags_ok by exact Ht. reflexivity.
  - reflexivity.
  - apply attributes_accepted_update; [apply node_attrs_accepted | exact Ha].
Qed.

Lemma member_type_accepted (lx : lxml) (o : object) :
  valid_text lx (member_type o) = true.
Proof. destruct o; reflexivity. Qed.

Lemma append_members_spec (lx : lxml) (h : store) (members : list (addr * string))
    (e : element) :
  Forall (fun m => nth_error h (fst m) <> None) members ->
  roles_accepted lx members = true ->
  exists cs,
    append_members lx h e members
      = Ok (Element (element_tag e) (element_attrib e) (element_children e ++ cs))
    /\ Forall2 (member_child_of h) members cs
    /\ Forall childless cs.
Proof.
  revert e; induction members as [|[a role] ms IH]; intros [t at_ c] Hall Hroles.
  - exists []. cbn. rewrite app_nil_r. repeat split; constructor.
  - apply Forall_cons_iff in Hall. destruct Hall as [Ha Hms]. cbn [fst] in Ha.
    unfold roles_accepted in Hroles. cbn [forallb snd] in Hroles.
    apply andb_true_iff in Hroles. destruct Hroles as [Hrole Hroles].
    cbn [append_members]. unfold deref.
    destruct (nth_error h a) as [o|] eqn:Ho; [|congruence]. cbn [bind].
    rewrite etree_Element_ok;
      [| reflexivity
       | unfold attributes_accepted; cbn [forallb fst snd];
         rewrite member_type_accepted, valid_text_format_d, Hrole; reflexivity].
    cbn [bind append].
    destruct (IH (Element t at_ (c ++ [Element "member"
                                         [("type", member_type o);
                                          ("ref", format_d (object_id o));
                                          ("role", role)] []])) Hms Hroles)
      as [cs [Heq [Hcs Hchildless]]].
    eexists (_ :: cs). split; [|split].
    + rewrite Heq. cbn [element_tag element_attrib element_children].
      rewrite <- app_assoc. reflexivity.
    + constructor; [|exact Hcs].
      exists o. split; [exact Ho|]. destruct o; reflexivity.
    + constructor; [reflexivity | exact Hchildless].
Qed.

Lemma append_nds_spec (lx : lxml) (h : store) (nodes : list addr) (e : element) :
  Forall (fun a => nth_error h a <> None) nodes ->
  exists cs,
    append_nds lx h e nodes
      = Ok (Element (element_tag e) (element_attrib e) (element_children e ++ cs))
    /\ Forall2 (nd_child_of h) nodes cs
    /\ Forall childless cs.
Proof.
  revert e; induction nodes as [|a ns IH]; intros [t at_ c] Hall.
  - exists []. cbn. rewrite app_nil_r. repeat split; constructor.
  - apply Forall_cons_iff in Hall. destruct Hall as [Ha Hns].
    cbn [append_nds]. unfold deref.
    destruct (nth_error h a) as [o|] eqn:Ho; [|congruence]. cbn [bind].
    rewrite etree_Element_ok;
      [| reflexivity
       | unfold attributes_accepted; cbn [forallb fst snd];
         rewrite valid_text_format_d; reflexivity].
    cbn [bind append].
    destruct (IH (Element t at_ (c ++ [Element "nd" [("ref", format_d (object_id o))] []]))
                Hns) as [cs [Heq [Hcs Hchildless]]].
    eexists (_ :: cs). split; [|split].
    + rewrite Heq. cbn [element_tag element_attrib element_children].
      rewrite <- app_assoc. reflexivity.
    + constructor; [|exact Hcs]. exists o. split; [exact Ho | reflexivity].
    + constructor; [reflexivity | exact Hchildless].
Qed.

(** [OsmWay.to_xml] when the nodes resolve and lxml accepts the texts. *)
Lemma way_to_element_ok (lx : lxml) (h : store) (w : OsmWay.t)
    (attributes : dict string) (sd : Z) :
  Forall (fun a => nth_error h a <> None) (OsmWay.nodes w) ->
  attributes_accepted lx attributes = true ->
  tags_accepted lx (OsmGeometry.tags (OsmWay.base w)) = true ->
  exists nds,
    OsmWay_to_element lx h w attributes sd
    = Ok (Element "way"
            (dict_update (OsmGeometry.xml_base_attrs (OsmWay.base w)) attributes)
            (nds ++ map OsmGeometry.tag_element (OsmGeometry.tags (OsmWay.base w))))
    /\ Forall2 (nd_child_of h) (OsmWay.nodes w) nds
    /\ Forall childless nds.
Proof.
  intros Hall Ha Ht. unfold OsmWay_to_element.
  rewrite etree_Element_ok;
    [| reflexivity
     | apply attributes_accepted_update; [apply base_attrs_accepted | exact Ha]].
  cbn [bind].
  destruct (append_nds_spec lx h (OsmWay.nodes w)
              (Element "way"
                 (dict_update (OsmGeometry.xml_base_attrs (OsmWay.base w)) attributes) [])
              Hall) as [cs [Heq [Hcs Hchildless]]].
  exists cs. rewrite Heq. cbn [bind]. rewrite append_tags_ok by exact Ht.
  repeat split; assumption.
Qed.

(** [OsmRelation.to_xml] when the members resolve and lxml accepts the
    texts. *)
Lemma relation_to_element_ok (lx : lxml) (h : store) (r : OsmRelation.t)
    (attributes : dict string) (sd : Z) :
  Forall (fun m => nth_error h (fst m) <> None) (OsmRelation.members r) ->
  attributes_accepted lx attributes = true ->
  roles_accepted lx (OsmRelation.members r) = true ->
  tags_accepted lx (OsmGeometry.tags (OsmRelation.base r)) = true ->
  exists member_children,
    OsmRelation_to_element lx h r attributes sd
    = Ok (Element "relation"
            (dict_update (OsmGeometry.xml_base_attrs (OsmRelation.base r)) attributes)
            (member_children
             ++ [Element "tag" [("k", "type"); ("v", "multipolygon")] []]
             ++ map OsmGeometry.tag_element (OsmGeometry.tags (OsmRelation.base r))))
    /\ Forall2 (member_child_of h) (OsmRelation.members r) member_children
    /\ Forall childless member_children.
Proof.
  intros Hall Ha Hroles Ht. unfold OsmRelation_to_element.
  rewrite etree_Element_ok;
    [| reflexivity
     | apply attributes_accepted_update; [apply base_attrs_accepted | exact Ha]].
  cbn [bind].
  destruct (append_members_spec lx h (OsmRelation.members r)
              (Element "relation"
                 (dict_update (OsmGeometry.xml_base_attrs (OsmRelation.base r)) attributes)
                 [])
              Hall Hroles) as [cs [Heq [Hcs Hchildless]]].
  exists cs. rewrite Heq. cbn [bind].
  rewrite etree_Element_ok by reflexivity. cbn [bind append element_tag element_attrib
                                                element_children app].
  rewrite append_tags_ok by exact Ht.
  cbn [element_tag element_attrib element_children]. rewrite <- app_assoc.
  repeat split; assumption.
Qed.

Lemma overlaid_intro (computed attributes : dict string) (k v : string)
    (t : string) (c : list element) :
  NoDup (keys attributes) -> In (k, v) attributes ->
  overlaid (keys computed) attributes k v
    (Element t (dict_update computed attributes) c).
Proof.
  intros Hnd Hin. exists computed. simpl. repeat split.
  - apply dict_get_update_in; assumption.
  - intros k' Hk'. apply dict_get_update_other; exact Hk'.
Qed.

Lemma keys_setitem_In {V : Type} (d : dict V) (k k' : string) (v : V) :
  In k' (keys (dict_setitem d k v)) -> In k' (keys d) \/ k' = k.
Proof.
  induction d as [|[k0 v0] d IH]; simpl.
  - intros [<-|[]]. right; reflexivity.
  - destruct (String.eqb_spec k k0) as [->|_]; simpl.
    + intros H. left. exact H.
    + intros [<-|H]; [left; left; reflexivity|].
      destruct (IH H) as [H'|H']; [left; right; exact H' | right; exact H'].
Qed.

Lemma dict_setitem_NoDup {V : Type} (d : dict V) (k : string) (v : V) :
  NoDup (keys d) -> NoDup (keys (dict_setitem d k v)).
Proof.
  induction d as [|[k0 v0] d IH]; simpl; intros H.
  - constructor; [intros [] | constructor].
  - apply NoDup_cons_iff in H. destruct H as [Hn Hd].
    destruct (String.eqb_spec k k0) as [->|Hne]; simpl.
    + constructor; assumption.
    + constructor; [|apply IH, Hd].
      intros Hin. destruct (keys_setitem_In d k k0 v Hin) as [H|H];
        [exact (Hn H) | exact (Hne (eq_sym H))].
Qed.

(** An updated dictionary has each key once. *)
Lemma dict_update_NoDup {V : Type} (other d : dict V) :
  NoDup (keys d) -> NoDup (keys (dict_update d other)).
Proof.
  unfold dict_update. revert d; induction other as [|[k v] other IH]; intros d Hd.
  - exact Hd.
  - cbn [fold_left fst snd]. apply IH, dict_setitem_NoDup, Hd.
Qed.

(** ** Whether a serialisation raises *)

Lemma same_shape_setitem (lx : lxml) (d d' : dict string) (k v : string) :
  same_shape lx d d' -> same_shape lx (dict_setitem d k v) (dict_setitem d' k v).
Proof.
  unfold same_shape. induction 1 as [|[k0 v0] [k0' v0'] d d' [Hk Hv] Hd IH].
  - constructor; [split; reflexivity | constructor].
  - cbn [fst snd] in Hk, Hv. subst k0'. cbn [dict_setitem].
    destruct (String.eqb k k0).
    + constructor; [split; reflexivity | exact Hd].
    + constructor; [split; [reflexivity | exact Hv] | exact IH].
Qed.

Lemma same_shape_update (lx : lxml) (other d d' : dict string) :
  same_shape lx d d' -> same_shape lx (dict_update d other) (dict_update d' other).
Proof.
  unfold dict_update. revert d d'; induction other as [|[k v] other IH]; intros d d' H.
  - exact H.
  - cbn [fold_left fst snd]. apply IH, same_shape_setitem, H.
Qed.

Lemma same_shape_accepted (lx : lxml) (d d' : dict string) :
  same_shape lx d d' -> attributes_accepted lx d = attributes_accepted lx d'.
Proof.
  unfold same_shape, attributes_accepted.
  induction 1 as [|[k v] [k' v'] d d' [Hk Hv] Hd IH]; [reflexivity|].
  cbn [fst snd] in Hk, Hv. subst k'. cbn [forallb fst snd]. rewrite Hv, IH. reflexivity.
Qed.

Lemma succeeds_etree_Element (lx : lxml) (tag : string) (attrib : dict string) :
  succeeds (etree_Element lx tag attrib)
  = valid_name lx tag && attributes_accepted lx attrib.
Proof.
  unfold etree_Element, attributes_accepted.
  destruct (valid_name lx tag && forallb _ attrib); reflexivity.
Qed.

(** The loop over the tags raises exactly when lxml refuses a key or a
    joined value. *)
Lemma succeeds_append_tags (lx : lxml) (b : OsmGeometry.t) (e : element) :
  succeeds (OsmGeometry.append_tags lx b e) = tags_accepted lx (OsmGeometry.tags b).
Proof.
  unfold OsmGeometry.append_tags, tags_accepted.
  revert e; induction (OsmGeometry.tags b) as [|[k vl] l IH]; intros e; [reflexivity|].
  cbn [OsmGeometry.append_tag_elements forallb fst snd].
  pose proof (succeeds_etree_Element lx "tag" [("k", k); ("v", join "," vl)]) as Hs.
  unfold attributes_accepted in Hs. cbn [forallb fst snd] in Hs.
  destruct (etree_Element lx "tag" [("k", k); ("v", join "," vl)]) as [tag|err];
    cbn [bind succeeds] in *.
  - rewrite IH.
    destruct (valid_text lx k), (valid_text lx (join "," vl)); try discriminate Hs;
      reflexivity.
  - destruct (valid_text lx k), (valid_text lx (join "," vl)); try discriminate Hs;
      reflexivity.
Qed.

(** Whether [OsmNode.to_xml] raises does not depend on the coordinates of the
    point. *)
Lemma node_succeeds_moved (lx : lxml) (n : OsmNode.t) (attributes : dict string)
    (sd : Z) (x y : float) :
  succeeds (OsmNode.to_element lx (moved_to n x y) attributes sd)
  = succeeds (OsmNode.to_element lx n attributes sd).
Proof.
  unfold OsmNode.to_element.
  destruct (Z.ltb_spec sd 0) as [Hneg|Hnn];
    [rewrite !format_stripped_raises by (left; exact Hneg); reflexivity|].
  destruct (Z.ltb_spec max_precision sd) as [Hbig|Hle];
    [rewrite !format_stripped_raises by (right; exact Hbig); reflexivity|].
  rewrite !format_stripped_ok by (split; assumption). cbn [bind].
  cbn [moved_to OsmNode.base OsmNode.x OsmNode.y].
  set (d := dict_update _ attributes). set (d' := dict_update _ attributes).
  assert (Hacc : attributes_accepted lx d = attributes_accepted lx d').
  { apply same_shape_accepted, same_shape_update. unfold same_shape.
    repeat (constructor; [split; [reflexivity|]|]);
      cbn [snd]; rewrite ?valid_text_formatted; try reflexivity. constructor. }
  pose proof (succeeds_etree_Element lx "node" d) as H.
  pose proof (succeeds_etree_Element lx "node" d') as H'.
  rewrite Hacc in H. rewrite <- H' in H. clear H' Hacc.
  destruct (etree_Element lx "node" d), (etree_Element lx "node" d');
    cbn [succeeds] in H; try discriminate H; cbn [bind].
  - rewrite !succeeds_append_tags. reflexivity.
  - reflexivity.
Qed.

(** ** The formatter of coordinates and bounds *)



(** The values of the examples are binary64 numbers. *)
Example examples_binary64 :
  forallb binary64
    [f_zero; f_one; f_two; f_three; f_four; f_five; f_ten; f_half; f_52_5; f_52;
     f_nan; f_inf; f_neg_inf] = true.
Proof. reflexivity. Qed.

(** The point stops the stripping: 10.0 at precision 2 gives the text 10
    followed by the point, and 52.0 at precision 5 the text 52 followed by the
    point; at precision 0 no point is printed and 10.0 gives the text 1.  A
    precision below 0 or above [max_precision] raises. *)
Example format_stripped_integers :
  format_stripped 2 f_ten = Ok "10."
  /\ format_stripped 5 f_52 = Ok "52."
  /\ format_stripped 0 f_ten = Ok "1"
  /\ format_stripped (-1) f_ten = Raise ValueError
  /\ format_stripped (max_precision + 1) f_ten = Raise ValueError.
Proof. repeat split; vm_compute; reflexivity. Qed.


(** ** Coordinates that are not finite *)

Lemma format_f_non_finite (p : nat) (x : float) :
  is_finite x = false ->
  In (format_f p x) non_finite_texts
  /\ strip "0" (format_f p x) = format_f p x.
Proof.
  destruct x as [s|s| |s m e]; simpl; intros H; try discriminate.
  - destruct s; simpl; split; auto.
  - split; auto.
Qed.




(** ** Children of the serialised elements *)



(** ** Attributes of the serialised elements *)



(** * Further properties of the module *)

(** ** Children of a path element *)



(** The text of that path. *)
Example way_text :
  OsmWay_to_xml strict_lxml ex_store
    (OsmWay.mk (OsmGeometry.mk (-5) [] []) [2%nat; 0%nat]) [] 6
  = Ok ("<way visible=" ++ quoted "true" ++ " id=" ++ quoted "-5" ++ ">"
        ++ "<nd ref=" ++ quoted "-3" ++ "/>" ++ "<nd ref=" ++ quoted "-1" ++ "/>"
        ++ "</way>").
Proof. vm_compute. reflexivity. Qed.

(** ** The precision argument *)



(** ** What the stripping leaves *)

(** X3: at a precision of at least 1 the text of a finite float has a
    point, and the stripping ends at it from both sides: what is returned is
    the sign and the integer digits without the zeros that lead them, the
    point, and the fraction digits without the zeros that trail them.  So no
    digit in front of the point is lost except leading zeros. *)
Theorem stripping_keeps_the_point (significant_digits : Z) (value : float) :
  1 <= significant_digits <= max_precision -> is_finite value = true ->
  exists sgn ip fp,
    format_f (Z.to_nat significant_digits) value = sgn ++ ip ++ "." ++ fp
    /\ (sgn = EmptyString \/ sgn = "-")
    /\ ip <> EmptyString
    /\ all_in digits ip = true
    /\ all_in digits fp = true
    /\ Z.of_nat (String.length fp) = significant_digits
    /\ format_stripped significant_digits value
       = Ok (lstrip "0" (sgn ++ ip) ++ "." ++ rstrip "0" fp).
Proof.
  intros Hsd Hfin.
  destruct (format_f_notation (Z.to_nat significant_digits) value Hfin)
    as [sgn [ip [fp [Hs [Hsgn [Hip [Hdi [Hdf Hlen]]]]]]]].
  destruct (Z.to_nat significant_digits) as [|p] eqn:Hp; [lia|].
  exists sgn, ip, fp. repeat split; try assumption.
  - lia.
  - rewrite format_stripped_ok by lia. rewrite Hp, Hs, <- append_assoc.
    f_equal. apply (strip_stop "0" (sgn ++ ip) fp "."%char). reflexivity.
Qed.

(** X3 at the value 10.0 and precision 2: the text is 10 and the point. *)
Lemma stripping_keeps_the_point_witness :
  exists sgn ip fp,
    format_f (Z.to_nat 2) f_ten = sgn ++ ip ++ "." ++ fp
    /\ (sgn = EmptyString \/ sgn = "-")
    /\ ip <> EmptyString
    /\ all_in digits ip = true
    /\ all_in digits fp = true
    /\ Z.of_nat (String.length fp) = 2
    /\ format_stripped 2 f_ten = Ok (lstrip "0" (sgn ++ ip) ++ "." ++ rstrip "0" fp).
Proof.
  apply (stripping_keeps_the_point 2 f_ten); [unfold max_precision; lia | reflexivity].
Defined.

(** X4: at every precision from 1 to [max_precision] the value 0.0 gives
    the text of the point alone and -0.0 the text -0 and the point; at
    precision 0 the value 0.0 gives the empty text.  [OsmBoundary.to_xml] has
    no check of [is_valid]: a box that never got an envelope is serialised
    with its four initial bounds 0.0. *)
Theorem zero_and_fresh_box :
  (forall (lx : lxml) (sd : Z), 1 <= sd <= max_precision ->
     format_stripped sd f_zero = Ok "."
     /\ format_stripped sd f_neg_zero = Ok "-0."
     /\ OsmBoundary.to_element lx OsmBoundary.init sd
        = Ok (Element "bounds"
                [("minlon", "."); ("minlat", "."); ("maxlon", "."); ("maxlat", ".")] [])
     /\ OsmBoundary.to_xml lx OsmBoundary.init sd
        = Ok ("<bounds minlon=" ++ quoted "." ++ " minlat=" ++ quoted "."
              ++ " maxlon=" ++ quoted "." ++ " maxlat=" ++ quoted "." ++ "/>"))
  /\ format_stripped 0 f_zero = Ok EmptyString.
Proof.
  split; [|reflexivity].
  intros lx sd Hsd.
  assert (Hz : forall s, format_stripped sd (S754_zero s)
                         = Ok (lstrip "0" (sign_str s ++ "0") ++ ".")).
  { intros s. rewrite format_stripped_ok by lia.
    destruct (Z.to_nat sd) as [|p] eqn:Hp; [lia|].
    unfold format_f, fixed_digits.
    rewrite Z.div_0_l, Z.mod_0_l by (apply Z.pow_nonzero; lia).
    change (format_d 0) with "0".
    rewrite <- append_assoc.
    change ("." ++ frac_digits (S p) 0) with (String "."%char (frac_digits (S p) 0)).
    rewrite (strip_stop "0" (sign_str s ++ "0") _ "."%char) by reflexivity.
    rewrite rstrip_all_in by apply frac_digits_zero. reflexivity. }
  assert (H0 : format_stripped sd f_zero = Ok ".") by (apply (Hz false)).
  split; [exact H0|]. split; [apply (Hz true)|].
  assert (Helt : OsmBoundary.to_element lx OsmBoundary.init sd
                 = Ok (Element "bounds"
                         [("minlon", "."); ("minlat", "."); ("maxlon", ".");
                          ("maxlat", ".")] [])).
  { unfold OsmBoundary.to_element, OsmBoundary.init.
    cbn [OsmBoundary.minlon OsmBoundary.minlat OsmBoundary.maxlon OsmBoundary.maxlat].
    rewrite H0. reflexivity. }
  split; [exact Helt|].
  unfold OsmBoundary.to_xml. rewrite Helt. reflexivity.
Qed.

(** X4 at precision 3. *)
Lemma zero_and_fresh_box_witness :
  format_stripped 3 f_zero = Ok "."
  /\ format_stripped 3 f_neg_zero = Ok "-0."
  /\ OsmBoundary.to_element strict_lxml OsmBoundary.init 3
     = Ok (Element "bounds"
             [("minlon", "."); ("minlat", "."); ("maxlon", "."); ("maxlat", ".")] []).
Proof.
  destruct (proj1 zero_and_fresh_box strict_lxml 3) as [H1 [H2 [H3 _]]];
    [unfold max_precision; lia|].
  repeat split; assumption.
Defined.

(** ** The box and the envelopes it was given *)

Lemma SFleb_lex (a b : float) :
  is_nan a = false -> is_nan b = false ->
  (SFleb a b = true <-> lex_le (lex_key a) (lex_key b)).
Proof.
  unfold SFleb, lex_le.
  destruct a as [sa|sa| |sa ma ea], b as [sb|sb| |sb mb eb]; intros Ha Hb;
    try discriminate; try destruct sa; try destruct sb; simpl;
    try (split; intros; try reflexivity; try discriminate; lia).
  - change (Pos.compare_cont Eq ma mb) with (Pos.compare ma mb).
    destruct (Z.compare_spec ea eb); try destruct (Pos.compare_spec ma mb); simpl;
      split; intros; try reflexivity; try discriminate; lia.
  - change (Pos.compare_cont Eq ma mb) with (Pos.compare ma mb).
    destruct (Z.compare_spec ea eb); try destruct (Pos.compare_spec ma mb); simpl;
      split; intros; try reflexivity; try discriminate; lia.
Qed.

Lemma SFleb_trans (a b c : float) :
  is_nan a = false -> is_nan b = false -> is_nan c = false ->
  SFleb a b = true -> SFleb b c = true -> SFleb a c = true.
Proof.
  intros Ha Hb Hc Hab Hbc.
  apply (SFleb_lex a b Ha Hb) in Hab. apply (SFleb_lex b c Hb Hc) in Hbc.
  apply (SFleb_lex a c Ha Hc). unfold lex_le in *. lia.
Qed.

Lemma py_min_nan_free (a b : float) :
  is_nan a = false -> is_nan b = false -> is_nan (py_min a b) = false.
Proof. intros Ha Hb. unfold py_min. destruct (SFltb b a); assumption. Qed.

Lemma py_max_nan_free (a b : float) :
  is_nan a = false -> is_nan b = false -> is_nan (py_max a b) = false.
Proof. intros Ha Hb. unfold py_max. destruct (SFltb a b); assumption. Qed.

(** A running [min] ends at or below where it starts and every value it
    meets, and it is one of them. *)
Lemma fold_py_min (l : list float) (a : float) :
  is_nan a = false -> Forall (fun x => is_nan x = false) l ->
  let r := fold_left py_min l a in
  is_nan r = false /\ SFleb r a = true
  /\ Forall (fun x => SFleb r x = true) l /\ In r (a :: l).
Proof.
  revert a; induction l as [|x l IH]; intros a Ha Hl; simpl.
  - repeat split; [exact Ha | apply SFleb_refl; exact Ha | constructor | left; reflexivity].
  - inversion Hl as [|? ? Hx Hl']; subst.
    destruct (py_min_is_min a x Ha Hx) as [Hcase [Hra Hrx]].
    assert (Hm : is_nan (py_min a x) = false) by (apply py_min_nan_free; assumption).
    destruct (IH (py_min a x) Hm Hl') as [Hn [Hle [Hall Hin]]].
    split; [exact Hn|]. split; [|split].
    + apply (SFleb_trans _ (py_min a x)); assumption.
    + constructor; [|exact Hall]. apply (SFleb_trans _ (py_min a x)); assumption.
    + destruct Hin as [Hin|Hin]; [|right; right; exact Hin].
      rewrite <- Hin. destruct Hcase as [->| ->]; [left | right; left]; reflexivity.
Qed.

Lemma fold_py_max (l : list float) (a : float) :
  is_nan a = false -> Forall (fun x => is_nan x = false) l ->
  let r := fold_left py_max l a in
  is_nan r = false /\ SFleb a r = true
  /\ Forall (fun x => SFleb x r = true) l /\ In r (a :: l).
Proof.
  revert a; induction l as [|x l IH]; intros a Ha Hl; simpl.
  - repeat split; [exact Ha | apply SFleb_refl; exact Ha | constructor | left; reflexivity].
  - inversion Hl as [|? ? Hx Hl']; subst.
    destruct (py_max_is_max a x Ha Hx) as [Hcase [Hra Hrx]].
    assert (Hm : is_nan (py_max a x) = false) by (apply py_max_nan_free; assumption).
    destruct (IH (py_max a x) Hm Hl') as [Hn [Hle [Hall Hin]]].
    split; [exact Hn|]. split; [|split].
    + apply (SFleb_trans _ (py_max a x)); assumption.
    + constructor; [|exact Hall]. apply (SFleb_trans _ (py_max a x)); assumption.
    + destruct Hin as [Hin|Hin]; [|right; right; exact Hin].
      rewrite <- Hin. destruct Hcase as [->| ->]; [left | right; left]; reflexivity.
Qed.

(** On a valid box the four bounds run on their own: each is the running
    [min] or [max] of its side of the envelopes. *)
Lemma add_envelopes_folds (envs : list envelope) (b : OsmBoundary.t) :
  OsmBoundary.is_valid b = true ->
  add_envelopes b envs
    = OsmBoundary.mk true
        (fold_left py_min (map env_minx envs) (OsmBoundary.minlon b))
        (fold_left py_max (map env_maxx envs) (OsmBoundary.maxlon b))
        (fold_left py_min (map env_miny envs) (OsmBoundary.minlat b))
        (fold_left py_max (map env_maxy envs) (OsmBoundary.maxlat b)).
Proof.
  unfold add_envelopes.
  revert b; induction envs as [|[[[minx maxx] miny] maxy] envs IH]; intros b Hb.
  - simpl. destruct b; simpl in *. subst. reflexivity.
  - cbn [fold_left map]. rewrite IH by apply add_envelope_valid.
    unfold OsmBoundary.add_envelope. rewrite Hb. reflexivity.
Qed.

(** X5: after any non-empty sequence of [add_envelope] calls on a new box
    with envelopes free of NaN, the box is valid, it reaches at least as far
    as every envelope of the sequence on all four sides, and each of its bounds
    is the bound of one of the envelopes on that side: the box is the union of
    the envelopes. *)
Theorem box_is_union (e : envelope) (envs : list envelope) :
  Forall env_nan_free (e :: envs) ->
  let b := add_envelopes OsmBoundary.init (e :: envs) in
  OsmBoundary.is_valid b = true
  /\ Forall (box_contains b) (e :: envs)
  /\ In (OsmBoundary.minlon b) (map env_minx (e :: envs))
  /\ In (OsmBoundary.maxlon b) (map env_maxx (e :: envs))
  /\ In (OsmBoundary.minlat b) (map env_miny (e :: envs))
  /\ In (OsmBoundary.maxlat b) (map env_maxy (e :: envs)).
Proof.
  intros Hall b.
  assert (Hb : b = add_envelopes
                     (OsmBoundary.mk true (env_minx e) (env_maxx e) (env_miny e) (env_maxy e))
                     envs).
  { unfold b, add_envelopes. destruct e as [[[minx maxx] miny] maxy]. reflexivity. }
  rewrite add_envelopes_folds in Hb by reflexivity. simpl in Hb.
  apply Forall_cons_iff in Hall. destruct Hall as [[He1 [He2 [He3 He4]]] Hrest].
  assert (H1 : Forall (fun x => is_nan x = false) (map env_minx envs)).
  { apply Forall_map. eapply Forall_impl; [|exact Hrest]. intros a Ha; apply Ha. }
  assert (H2 : Forall (fun x => is_nan x = false) (map env_maxx envs)).
  { apply Forall_map. eapply Forall_impl; [|exact Hrest]. intros a Ha; apply Ha. }
  assert (H3 : Forall (fun x => is_nan x = false) (map env_miny envs)).
  { apply Forall_map. eapply Forall_impl; [|exact Hrest]. intros a Ha; apply Ha. }
  assert (H4 : Forall (fun x => is_nan x = false) (map env_maxy envs)).
  { apply Forall_map. eapply Forall_impl; [|exact Hrest]. intros a Ha; apply Ha. }
  destruct (fold_py_min _ _ He1 H1) as [_ [Ha1 [Hl1 Hi1]]].
  destruct (fold_py_max _ _ He2 H2) as [_ [Ha2 [Hl2 Hi2]]].
  destruct (fold_py_min _ _ He3 H3) as [_ [Ha3 [Hl3 Hi3]]].
  destruct (fold_py_max _ _ He4 H4) as [_ [Ha4 [Hl4 Hi4]]].
  rewrite Forall_map in Hl1, Hl2, Hl3, Hl4.
  rewrite Hb. cbn [OsmBoundary.is_valid OsmBoundary.minlon OsmBoundary.maxlon
                   OsmBoundary.minlat OsmBoundary.maxlat].
  split; [reflexivity|]. split; [|repeat split; assumption].
  constructor.
  - unfold box_contains; simpl. repeat split; assumption.
  - rewrite Forall_forall in *. intros x Hx. unfold box_contains; simpl.
    repeat split; [apply Hl1 | apply Hl2 | apply Hl3 | apply Hl4]; exact Hx.
Qed.

(** X5 at the envelopes (1, 2, 3, 4) and (0, 5, 3, 3). *)
Lemma box_is_union_witness :
  let b := add_envelopes OsmBoundary.init
             [(f_one, f_two, f_three, f_four); (f_zero, f_five, f_three, f_three)] in
  OsmBoundary.is_valid b = true
  /\ Forall (box_contains b)
       [(f_one, f_two, f_three, f_four); (f_zero, f_five, f_three, f_three)]
  /\ In (OsmBoundary.minlon b) [f_one; f_zero]
  /\ In (OsmBoundary.maxlon b) [f_two; f_five]
  /\ In (OsmBoundary.minlat b) [f_three; f_three]
  /\ In (OsmBoundary.maxlat b) [f_four; f_three].
Proof.
  apply (box_is_union (f_one, f_two, f_three, f_four)
           [(f_zero, f_five, f_three, f_three)]).
  repeat constructor.
Defined.

(** ** NaN in an envelope *)

Lemma py_min_nan_r (a : float) : py_min a S754_nan = a.
Proof. unfold py_min, SFltb. simpl. reflexivity. Qed.

Lemma py_max_nan_r (a : float) : py_max a S754_nan = a.
Proof. unfold py_max, SFltb. destruct a; reflexivity. Qed.

Lemma fold_py_min_nan (l : list float) (a : float) :
  is_nan a = true -> is_nan (fold_left py_min l a) = true.
Proof.
  revert a; induction l as [|x l IH]; intros a Ha; simpl; [exact Ha|].
  apply IH. destruct a; try discriminate. unfold py_min, SFltb.
  destruct x; reflexivity.
Qed.

Lemma fold_py_max_nan (l : list float) (a : float) :
  is_nan a = true -> is_nan (fold_left py_max l a) = true.
Proof.
  revert a; induction l as [|x l IH]; intros a Ha; simpl; [exact Ha|].
  apply IH. destruct a; try discriminate. reflexivity.
Qed.

(** X6: [add_envelope] does not guard against NaN.  On a valid box a
    bound given as NaN is ignored, so an envelope of four NaN leaves the box
    as it was; but a NaN that the first call adopts as a bound stays that
    bound through every later call, whatever the envelopes. *)
Theorem nan_in_envelopes :
  (forall b : OsmBoundary.t,
     OsmBoundary.is_valid b = true ->
     OsmBoundary.add_envelope b f_nan f_nan f_nan f_nan = b)
  /\ (forall (e : envelope) (envs : list envelope),
     let b := add_envelopes OsmBoundary.init (e :: envs) in
     (is_nan (env_minx e) = true -> is_nan (OsmBoundary.minlon b) = true)
     /\ (is_nan (env_maxx e) = true -> is_nan (OsmBoundary.maxlon b) = true)
     /\ (is_nan (env_miny e) = true -> is_nan (OsmBoundary.minlat b) = true)
     /\ (is_nan (env_maxy e) = true -> is_nan (OsmBoundary.maxlat b) = true)).
Proof.
  split.
  - intros b Hb. unfold OsmBoundary.add_envelope, f_nan. rewrite Hb.
    rewrite !py_min_nan_r, !py_max_nan_r. destruct b; simpl in *. subst. reflexivity.
  - intros e envs b.
    assert (Hb : b = add_envelopes
                       (OsmBoundary.mk true (env_minx e) (env_maxx e)
                          (env_miny e) (env_maxy e)) envs).
    { unfold b, add_envelopes. destruct e as [[[minx maxx] miny] maxy]. reflexivity. }
    rewrite add_envelopes_folds in Hb by reflexivity. simpl in Hb.
    rewrite Hb. simpl.
    repeat split; intros H;
      [apply fold_py_min_nan | apply fold_py_max_nan
       | apply fold_py_min_nan | apply fold_py_max_nan]; exact H.
Qed.

(** X6 at a first envelope whose minx is NaN, followed by (0, 5, 3, 3). *)
Lemma nan_in_envelopes_witness :
  is_nan (OsmBoundary.minlon
            (add_envelopes OsmBoundary.init
               [(f_nan, f_two, f_three, f_four); (f_zero, f_five, f_three, f_three)]))
  = true.
Proof.
  apply (proj1 (proj2 nan_in_envelopes (f_nan, f_two, f_three, f_four)
                  [(f_zero, f_five, f_three, f_three)])).
  reflexivity.
Defined.

(** ** The set of parents *)

Lemma set_mem_In (q : addr) (l : set addr) :
  set_mem Nat.eq_dec q l = true <-> In q l.
Proof.
  split; [apply set_mem_correct1 | apply set_mem_correct2].
Qed.

Lemma parent_call_step (g : OsmGeometry.t) (c : parent_call) (q : addr) :
  NoDup (OsmGeometry.parents g) ->
  NoDup (OsmGeometry.parents (apply_parent_call g c))
  /\ set_mem Nat.eq_dec q (OsmGeometry.parents (apply_parent_call g c))
     = parent_after q (set_mem Nat.eq_dec q (OsmGeometry.parents g)) c.
Proof.
  intros Hnd. destruct c as [p|p]; simpl.
  - split; [apply set_add_nodup; exact Hnd|].
    apply eq_true_iff_eq. rewrite set_mem_In, set_add_iff.
    destruct (Nat.eqb_spec p q) as [->|Hne].
    + split; [reflexivity | left; reflexivity].
    + rewrite set_mem_In. split; [intros [H|H]; [congruence | exact H] | right; assumption].
  - split; [apply set_remove_nodup; exact Hnd|].
    apply eq_true_iff_eq. rewrite set_mem_In, (set_remove_iff Nat.eq_dec _ _ Hnd).
    destruct (Nat.eqb_spec p q) as [->|Hne].
    + split; [intros [_ H]; congruence | discriminate].
    + rewrite set_mem_In. split; [intros [H _]; exact H | intros H; split; [exact H | congruence]].
Qed.

Lemma parent_calls_steps (calls : list parent_call) (g : OsmGeometry.t) (q : addr) :
  NoDup (OsmGeometry.parents g) ->
  NoDup (OsmGeometry.parents (apply_parent_calls g calls))
  /\ set_mem Nat.eq_dec q (OsmGeometry.parents (apply_parent_calls g calls))
     = fold_left (parent_after q) calls (set_mem Nat.eq_dec q (OsmGeometry.parents g)).
Proof.
  unfold apply_parent_calls.
  revert g; induction calls as [|c calls IH]; intros g Hnd; simpl.
  - split; [exact Hnd | reflexivity].
  - destruct (parent_call_step g c q Hnd) as [Hnd' Hmem].
    destruct (IH _ Hnd') as [Hnd'' Hmem'']. rewrite Hmem'', Hmem.
    split; [exact Hnd'' | reflexivity].
Qed.

Lemma apply_parent_calls_frame (calls : list parent_call) (g : OsmGeometry.t) :
  OsmGeometry.id (apply_parent_calls g calls) = OsmGeometry.id g
  /\ OsmGeometry.tags (apply_parent_calls g calls) = OsmGeometry.tags g.
Proof.
  unfold apply_parent_calls.
  revert g; induction calls as [|c calls IH]; intros g; simpl.
  - split; reflexivity.
  - destruct (IH (apply_parent_call g c)) as [Hid Htags]. rewrite Hid, Htags.
    destruct c; split; reflexivity.
Qed.

(** X7: the parents of an object behave as a set under [addparent] and
    [removeparent].  After any sequence of these calls on a newly constructed
    object, [get_parents] holds [q] exactly when the last call that named [q]
    was an [addparent]; how often [q] was added or removed before makes no
    difference.  The calls change neither the id nor the tags. *)
Theorem parents_follow_last_call (ctr : OsmId.t) (calls : list parent_call) (q : addr) :
  let g := apply_parent_calls (fst (OsmGeometry.init ctr)) calls in
  (In q (OsmGeometry.get_parents g) <-> fold_left (parent_after q) calls false = true)
  /\ OsmGeometry.id g = OsmGeometry.id (fst (OsmGeometry.init ctr))
  /\ OsmGeometry.tags g = [].
Proof.
  intros g. split.
  - unfold OsmGeometry.get_parents. rewrite <- set_mem_In.
    destruct (parent_calls_steps calls (fst (OsmGeometry.init ctr)) q) as [_ Hmem].
    + simpl. constructor.
    + fold g in Hmem. rewrite Hmem. simpl. reflexivity.
  - apply (apply_parent_calls_frame calls (fst (OsmGeometry.init ctr))).
Qed.

Lemma set_add_present (p : addr) (l : set addr) :
  In p l -> set_add Nat.eq_dec p l = l.
Proof.
  induction l as [|a l IH]; simpl; [contradiction|].
  intros Hin. destruct (Nat.eq_dec p a) as [_|Hne]; [reflexivity|].
  destruct Hin as [Heq|Hin]; [congruence|]. rewrite IH by exact Hin. reflexivity.
Qed.

Lemma set_remove_absent (p : addr) (l : set addr) :
  ~ In p l -> set_remove Nat.eq_dec p l = l.
Proof.
  induction l as [|a l IH]; simpl; [reflexivity|].
  intros Hnot. destruct (Nat.eq_dec p a) as [Heq|_].
  - exfalso; apply Hnot; left; symmetry; exact Heq.
  - rewrite IH; [reflexivity|]. intros Hin; apply Hnot; right; exact Hin.
Qed.

(** X8: [addparent] is idempotent, a second call with the same parent
    changes nothing; [removeparent] of a parent the object does not have
    changes nothing and raises nothing; and removing a parent right after
    adding it to an object that did not have it gives the object back. *)
Theorem parents_add_remove (g : OsmGeometry.t) (p : addr) :
  OsmGeometry.addparent (OsmGeometry.addparent g p) p = OsmGeometry.addparent g p
  /\ (~ In p (OsmGeometry.get_parents g) -> OsmGeometry.removeparent g p = g)
  /\ (~ In p (OsmGeometry.get_parents g) ->
      OsmGeometry.removeparent (OsmGeometry.addparent g p) p = g).
Proof.
  unfold OsmGeometry.addparent, OsmGeometry.removeparent, OsmGeometry.set_parents,
    OsmGeometry.get_parents.
  destruct g as [i t ps]; simpl. split; [|split].
  - rewrite set_add_present; [reflexivity|]. apply set_add_intro2. reflexivity.
  - intros Hnot. rewrite set_remove_absent by exact Hnot. reflexivity.
  - intros Hnot. f_equal.
    induction ps as [|a ps IH]; simpl.
    + destruct (Nat.eq_dec p p); [reflexivity | congruence].
    + destruct (Nat.eq_dec p a) as [Heq|Hne].
      * exfalso; apply Hnot; left; symmetry; exact Heq.
      * simpl. destruct (Nat.eq_dec p a); [congruence|].
        rewrite IH; [reflexivity|]. intros Hin; apply Hnot; right; exact Hin.
Qed.

(** X8 at the base of the point [ex_node], which has no parent, and the
    parent 7. *)
Lemma parents_add_remove_witness :
  OsmGeometry.removeparent (OsmGeometry.addparent (OsmNode.base ex_node) 7%nat) 7%nat
  = OsmNode.base ex_node.
Proof.
  apply (proj2 (proj2 (parents_add_remove (OsmNode.base ex_node) 7%nat))).
  intros [].
Defined.

(** ** The counter across calls *)

(** X9: after [set_id(S, True)] the ids of the next constructor calls
    are S+1, S+2, ... whatever the counter state was; after [set_id(S, False)]
    they move from S by the step the counter had before, so they are S-1,
    S-2, ... from the initial state and again S+1, S+2, ... once an earlier
    call has made the step positive. *)
Theorem ids_after_set_id (st : OsmId.t) (start_id : Z) (cs : list ctor) :
  constructed_ids cs (OsmId.set_id start_id true st)
    = map (fun k => start_id + Z.of_nat k) (seq 1 (List.length cs))
  /\ constructed_ids cs (OsmId.set_id start_id false st)
    = map (fun k => start_id + Z.of_nat k * OsmId.element_id_counter_incr st)
          (seq 1 (List.length cs))
  /\ constructed_ids cs (OsmId.set_id start_id false OsmId.initial)
    = map (fun k => start_id - Z.of_nat k) (seq 1 (List.length cs))
  /\ constructed_ids cs (OsmId.set_id start_id false (OsmId.set_id 0 true st))
    = map (fun k => start_id + Z.of_nat k) (seq 1 (List.length cs)).
Proof.
  unfold OsmId.set_id; simpl. rewrite !constructed_ids_walk.
  repeat split; apply map_ext; intros k; lia.
Qed.

Lemma construct_all_state (cs : list ctor) (start step : Z) :
  snd (construct_all cs (OsmId.mk start step))
    = OsmId.mk (start + Z.of_nat (List.length cs) * step) step.
Proof.
  revert start; induction cs as [|c cs IH]; intros start.
  - simpl. f_equal. lia.
  - cbn [construct_all].
    destruct (construct_step c (OsmId.mk start step)) as [_ Hctr].
    destruct (construct c (OsmId.mk start step)) as [o ctr']. simpl in Hctr. subst ctr'.
    specialize (IH (start + step)).
    destruct (construct_all cs (OsmId.mk (start + step) step)) as [os ctr''].
    cbn [snd] in *. rewrite IH. f_equal.
    change (List.length (c :: cs)) with (S (List.length cs)). lia.
Qed.

Lemma seq_plus (n s len : nat) :
  seq (s + n) len = map (fun k => (k + n)%nat) (seq s len).
Proof.
  revert s; induction len as [|len IH]; intros s; simpl; [reflexivity|].
  f_equal. apply (IH (S s)).
Qed.

Lemma continued_ids_NoDup (start step : Z) (cs1 cs2 : list ctor) :
  step <> 0 ->
  NoDup (constructed_ids cs1 (OsmId.mk start step)
         ++ constructed_ids cs2
              (OsmId.mk (start + Z.of_nat (List.length cs1) * step) step)).
Proof.
  intros Hstep. rewrite !constructed_ids_walk.
  assert (Heq : (map (fun k => start + Z.of_nat k * step) (seq 1 (List.length cs1))
                 ++ map (fun k => start + Z.of_nat (List.length cs1) * step
                                  + Z.of_nat k * step) (seq 1 (List.length cs2)))%list
                = map (fun k => start + Z.of_nat k * step)
                      (seq 1 (List.length cs1 + List.length cs2))).
  { rewrite seq_app, map_app. f_equal.
    rewrite (seq_plus (List.length cs1) 1), map_map.
    apply map_ext; intros k. lia. }
  rewrite Heq. apply walk_NoDup; exact Hstep.
Qed.

(** X10: N constructor calls move the counter N steps and leave the step
    as it is; the counter then equals the id of the last object constructed,
    which is the value [save_id] would write.  Constructor calls that go on
    from there get ids that differ from one another and from all the earlier
    ones, when the step is not 0. *)
Theorem counter_after_constructions (st : OsmId.t) (cs1 cs2 : list ctor) :
  let st1 := snd (construct_all cs1 st) in
  OsmId.element_id_counter st1
    = OsmId.element_id_counter st
      + Z.of_nat (List.length cs1) * OsmId.element_id_counter_incr st
  /\ OsmId.element_id_counter_incr st1 = OsmId.element_id_counter_incr st
  /\ last (constructed_ids cs1 st) (OsmId.element_id_counter st)
     = OsmId.element_id_counter st1
  /\ (OsmId.element_id_counter_incr st <> 0 ->
      NoDup (constructed_ids cs1 st ++ constructed_ids cs2 st1)).
Proof.
  destruct st as [start step]. intros st1. unfold st1.
  rewrite construct_all_state. simpl. split; [reflexivity|]. split; [reflexivity|].
  split.
  - rewrite constructed_ids_walk.
    destruct cs1 as [|c cs1 _] using rev_ind.
    + simpl. lia.
    + rewrite length_app. cbn [List.length]. rewrite Nat.add_1_r.
      rewrite seq_S, map_app. cbn [map]. rewrite last_last. lia.
  - apply continued_ids_NoDup.
Qed.

(** X10 at two constructor calls followed by one more, from the initial
    state. *)
Lemma counter_after_constructions_witness :
  NoDup (constructed_ids [NewWay []; NewRelation []] OsmId.initial
         ++ constructed_ids [NewWay []]
              (snd (construct_all [NewWay []; NewRelation []] OsmId.initial))).
Proof.
  apply (proj2 (proj2 (proj2
           (counter_after_constructions OsmId.initial
              [NewWay []; NewRelation []] [NewWay []])))).
  discriminate.
Defined.

(** ** Tags on an object that has some already *)

Lemma dict_get_absent {V : Type} (d : dict V) (k : string) :
  ~ In k (keys d) -> dict_get d k = None.
Proof.
  induction d as [|[k0 v0] d IH]; simpl; intros Hk; [reflexivity|].
  destruct (String.eqb_spec k k0) as [->|_].
  - exfalso; apply Hk; left; reflexivity.
  - apply IH. intros Hin; apply Hk; right; exact Hin.
Qed.

Lemma append_tag_get (b : OsmGeometry.t) (kv : string * pyvalue) (k : string) :
  dict_get (OsmGeometry.tags (OsmGeometry.append_tag b kv)) k
    = if String.eqb k (fst kv)
      then stored_value (Some (snd kv)) (dict_get (OsmGeometry.tags b) k)
      else dict_get (OsmGeometry.tags b) k.
Proof.
  unfold OsmGeometry.append_tag, stored_value. destruct kv as [k0 v0]; simpl.
  destruct v0 as [|s]; simpl.
  - destruct (String.eqb k k0); reflexivity.
  - destruct (String.eqb s EmptyString); simpl.
    + destruct (String.eqb k k0); reflexivity.
    + unfold dict_update; simpl. apply dict_get_setitem.
Qed.

(** X11: [_append_non_empty_tags] works as an update of the stored tags.
    For a candidate mapping (keys all different) and an object that may have
    tags already, afterwards a key whose candidate value is a non-empty string
    has that value alone as its list, and every other key, one whose candidate
    is empty or [None] as well, has what was stored before: a falsy candidate
    neither removes nor replaces a stored tag. *)
Theorem append_tags_is_update (b : OsmGeometry.t) (candidates : dict pyvalue)
    (k : string) :
  NoDup (keys candidates) ->
  dict_get (OsmGeometry.tags (OsmGeometry._append_non_empty_tags b candidates)) k
    = stored_value (dict_get candidates k) (dict_get (OsmGeometry.tags b) k).
Proof.
  unfold OsmGeometry._append_non_empty_tags.
  revert b; induction candidates as [|[k0 v0] cs IH]; intros b Hnd.
  - reflexivity.
  - cbn [fold_left]. apply NoDup_cons_iff in Hnd. destruct Hnd as [Hk0 Hnd].
    rewrite (IH _ Hnd), append_tag_get. cbn [fst snd dict_get].
    destruct (String.eqb_spec k k0) as [->|Hne].
    + rewrite (dict_get_absent cs k0 Hk0). reflexivity.
    + reflexivity.
Qed.

(** X11 at an object with the tag name = [Main St] and candidates that
    give an empty name and a ref. *)
Lemma append_tags_is_update_witness :
  dict_get
    (OsmGeometry.tags
       (OsmGeometry._append_non_empty_tags (OsmNode.base ex_node)
          [("name", PyStr EmptyString); ("ref", PyStr "A1")])) "name"
  = Some ["Main St"].
Proof.
  refine (eq_trans (append_tags_is_update (OsmNode.base ex_node)
                      [("name", PyStr EmptyString); ("ref", PyStr "A1")] "name" _)
                   eq_refl).
  repeat constructor; simpl; intuition discriminate.
Defined.

(** ** The counter file *)

Lemma char_in_cases (c : ascii) (chars : string) :
  char_in c chars = true -> In c (list_ascii_of_string chars).
Proof.
  induction chars as [|d chars IH]; simpl; [discriminate|].
  destruct (Ascii.eqb_spec c d) as [->|_]; simpl; [left; reflexivity|].
  intros H; right; apply IH; exact H.
Qed.

(** No character of the text of an integer is white space, a line end, an
    underscore or a plus sign. *)
Lemma int_char_plain (c : ascii) :
  char_in c int_chars = true ->
  char_in c whitespace = false
  /\ Ascii.eqb c newline || Ascii.eqb c carriage_return = false
  /\ Ascii.eqb c "_"%char = false
  /\ Ascii.eqb c "+"%char = false.
Proof.
  intros H. apply char_in_cases in H. simpl in H.
  repeat (destruct H as [<-|H]; [repeat split; reflexivity|]). contradiction.
Qed.

Lemma digit_is_int_char (c : ascii) :
  char_in c digits = true -> char_in c int_chars = true /\ Ascii.eqb c "-"%char = false.
Proof.
  intros H. apply char_in_cases in H. simpl in H.
  repeat (destruct H as [<-|H]; [split; reflexivity|]). contradiction.
Qed.

Lemma digits_are_int_chars (s : string) :
  all_in digits s = true -> all_in int_chars s = true.
Proof.
  induction s as [|c s IH]; cbn [all_in]; [reflexivity|].
  intros H. apply andb_true_iff in H. destruct H as [Hc Hs].
  rewrite (proj1 (digit_is_int_char c Hc)), (IH Hs). reflexivity.
Qed.

Lemma lstrip_plain (s : string) :
  all_in int_chars s = true -> lstrip whitespace s = s.
Proof.
  destruct s as [|c s]; [reflexivity|]. cbn [all_in lstrip].
  intros H. apply andb_true_iff in H. destruct H as [Hc _].
  rewrite (proj1 (int_char_plain c Hc)). reflexivity.
Qed.

Lemma rstrip_plain (s : string) :
  all_in int_chars s = true -> rstrip whitespace s = s.
Proof.
  induction s as [|c s IH]; [reflexivity|]. cbn [all_in].
  intros H. apply andb_true_iff in H. destruct H as [Hc Hs].
  rewrite rstrip_cons, (IH Hs), (proj1 (int_char_plain c Hc)).
  destruct s; reflexivity.
Qed.

Lemma strip_plain (s : string) :
  all_in int_chars s = true -> strip whitespace s = s.
Proof.
  intros H. unfold strip. rewrite (lstrip_plain s H). apply rstrip_plain; exact H.
Qed.

Lemma drop_underscores_digits (s : string) (after_digit : bool) :
  all_in digits s = true -> drop_underscores after_digit s = Some s.
Proof.
  revert after_digit; induction s as [|c s IH]; intros after_digit; [reflexivity|].
  cbn [all_in drop_underscores].
  intros H. apply andb_true_iff in H. destruct H as [Hc Hs].
  destruct (digit_is_int_char c Hc) as [Hi _].
  destruct (int_char_plain c Hi) as [_ [_ [Hu _]]].
  rewrite Hu, (IH _ Hs). reflexivity.
Qed.

(** [int] reads the decimal text of a number back, with or without a
    minus sign in front. *)
Lemma ascii_int_of_uint (u : Decimal.uint) :
  u <> Decimal.Nil ->
  ascii_int (NilEmpty.string_of_uint u) = Ok (Z.of_uint u)
  /\ ascii_int (String "-"%char (NilEmpty.string_of_uint u)) = Ok (- Z.of_uint u).
Proof.
  intros Hu.
  assert (Hd : all_in digits (NilEmpty.string_of_uint u) = true)
    by apply string_of_uint_digits.
  assert (Hi : all_in int_chars (NilEmpty.string_of_uint u) = true)
    by (apply digits_are_int_chars; exact Hd).
  unfold ascii_int. split.
  - rewrite (strip_plain _ Hi).
    destruct (NilEmpty.string_of_uint u) as [|c r] eqn:Hs.
    + destruct u; discriminate || congruence.
    + cbn [all_in] in Hd, Hi.
      apply andb_true_iff in Hd. destruct Hd as [Hc Hr].
      destruct (digit_is_int_char c Hc) as [Hci Hminus].
      destruct (int_char_plain c Hci) as [_ [_ [_ Hplus]]].
      rewrite Hminus, Hplus.
      rewrite drop_underscores_digits
        by (cbn [all_in]; rewrite Hc, Hr; reflexivity).
      rewrite <- Hs, NilEmpty.usu. destruct u; congruence || reflexivity.
  - rewrite strip_plain by (cbn [all_in]; rewrite Hi; reflexivity).
    cbn [Ascii.eqb Bool.eqb]. simpl Ascii.eqb.
    rewrite (drop_underscores_digits _ false Hd), NilEmpty.usu.
    destruct u; congruence || reflexivity.
Qed.

Lemma ascii_int_format_d (z : Z) : ascii_int (format_d z) = Ok z.
Proof.
  unfold format_d. destruct z as [|p|p]; [reflexivity| |].
  - cbn [Z.to_int NilZero.string_of_int]. unfold NilZero.string_of_uint.
    pose proof (DecimalPos.Unsigned.to_uint_nonnil p) as Hn.
    destruct (ascii_int_of_uint (Pos.to_uint p) Hn) as [H _].
    replace (Z.of_uint (Pos.to_uint p)) with (Z.pos p) in H
      by (unfold Z.of_uint; rewrite DecimalPos.Unsigned.of_to; reflexivity).
    destruct (Pos.to_uint p); [congruence|exact H..].
  - cbn [Z.to_int NilZero.string_of_int]. unfold NilZero.string_of_uint.
    pose proof (DecimalPos.Unsigned.to_uint_nonnil p) as Hn.
    destruct (ascii_int_of_uint (Pos.to_uint p) Hn) as [_ H].
    replace (Z.of_uint (Pos.to_uint p)) with (Z.pos p) in H
      by (unfold Z.of_uint; rewrite DecimalPos.Unsigned.of_to; reflexivity).
    destruct (Pos.to_uint p); [congruence|exact H..].
Qed.

Lemma string_of_uint_length (u : Decimal.uint) :
  String.length (NilEmpty.string_of_uint u) = Decimal.nb_digits u.
Proof. induction u; simpl; try rewrite IHu; reflexivity. Qed.

Lemma of_uint_acc_lower (u : Decimal.uint) (acc : positive) :
  Z.pos acc * 10 ^ Z.of_nat (Decimal.nb_digits u) <= Z.pos (Pos.of_uint_acc u acc).
Proof.
  revert acc; induction u as [|u IH|u IH|u IH|u IH|u IH|u IH|u IH|u IH|u IH|u IH];
    intros acc; cbn [Decimal.nb_digits Pos.of_uint_acc];
    [ rewrite Z.pow_0_r; lia | .. ];
    rewrite Nat2Z.inj_succ, Z.pow_succ_r by lia;
    (etransitivity; [|apply IH]);
    assert (0 < 10 ^ Z.of_nat (Decimal.nb_digits u)) by (apply Z.pow_pos_nonneg; lia);
    nia.
Qed.

(** The decimal digits of a positive number start with a digit other than
    0. *)
Lemma to_uint_head (p : positive) :
  match Pos.to_uint p with
  | Decimal.Nil | Decimal.D0 _ => False
  | _ => True
  end.
Proof.
  pose proof (DecimalPos.Unsigned.to_of (Pos.to_uint p)) as Hnorm.
  rewrite DecimalPos.Unsigned.of_to in Hnorm. simpl in Hnorm.
  pose proof (DecimalPos.Unsigned.to_uint_nonzero p) as Hnz.
  destruct (Pos.to_uint p) as [|l|l|l|l|l|l|l|l|l|l]; try exact I.
  - discriminate Hnorm.
  - unfold Decimal.unorm in Hnorm. cbn [Decimal.nzhead] in Hnorm.
    pose proof (DecimalFacts.nb_digits_nzhead l) as Hle.
    destruct (Decimal.nzhead l) eqn:Hh;
      try (rewrite <- Hnorm in Hle; cbn [Decimal.nb_digits] in Hle; lia).
    apply Hnz. exact Hnorm.
Qed.

Lemma pos_digits_lower (p : positive) :
  10 ^ (Z.of_nat (Decimal.nb_digits (Pos.to_uint p)) - 1) <= Z.pos p.
Proof.
  pose proof (to_uint_head p) as Hhead.
  pose proof (DecimalPos.Unsigned.of_to p) as Hof.
  destruct (Pos.to_uint p) as [|l|l|l|l|l|l|l|l|l|l]; try contradiction;
    cbn [Pos.of_uint Decimal.nb_digits] in *;
    injection Hof as Hof; rewrite <- Hof;
    rewrite Nat2Z.inj_succ;
    replace (Z.succ (Z.of_nat (Decimal.nb_digits l)) - 1)
      with (Z.of_nat (Decimal.nb_digits l)) by lia;
    (etransitivity; [|apply of_uint_acc_lower]);
    assert (0 < 10 ^ Z.of_nat (Decimal.nb_digits l)) by (apply Z.pow_pos_nonneg; lia);
    nia.
Qed.

Lemma pos_digits_bound (p : positive) (n : nat) :
  Z.pos p < 10 ^ Z.of_nat n -> (Decimal.nb_digits (Pos.to_uint p) <= n)%nat.
Proof.
  intros Hp. pose proof (pos_digits_lower p) as Hlow.
  assert (Hlt : 10 ^ (Z.of_nat (Decimal.nb_digits (Pos.to_uint p)) - 1)
                < 10 ^ Z.of_nat n) by lia.
  apply Z.pow_lt_mono_r_iff in Hlt; lia.
Qed.

Lemma format_d_pos (p : positive) :
  format_d (Z.pos p) = NilEmpty.string_of_uint (Pos.to_uint p)
  /\ format_d (Z.neg p) = String "-"%char (NilEmpty.string_of_uint (Pos.to_uint p)).
Proof.
  unfold format_d. cbn [Z.to_int NilZero.string_of_int]. unfold NilZero.string_of_uint.
  pose proof (DecimalPos.Unsigned.to_uint_nonnil p) as Hn.
  destruct (Pos.to_uint p); [congruence | split; reflexivity ..].
Qed.

(** A number between -10^(n-1) and 10^n, both excluded, is written with at
    most [n] characters. *)
Lemma format_d_length (z : Z) (n : nat) :
  (1 <= n)%nat -> - 10 ^ (Z.of_nat n - 1) < z < 10 ^ Z.of_nat n ->
  (String.length (format_d z) <= n)%nat.
Proof.
  intros Hn Hz. destruct z as [|p|p].
  - simpl. exact Hn.
  - rewrite (proj1 (format_d_pos p)), string_of_uint_length.
    apply pos_digits_bound. lia.
  - rewrite (proj2 (format_d_pos p)). cbn [String.length].
    rewrite string_of_uint_length.
    assert (H : (Decimal.nb_digits (Pos.to_uint p) <= n - 1)%nat).
    { apply pos_digits_bound. rewrite Nat2Z.inj_sub by exact Hn. simpl Z.of_nat. lia. }
    lia.
Qed.

Lemma readline_plain (s : string) (size : nat) :
  all_in int_chars s = true -> (String.length s <= size)%nat ->
  readline size s = s.
Proof.
  revert size; induction s as [|c s IH]; intros size Hs Hlen.
  - destruct size; reflexivity.
  - destruct size as [|size]; [simpl in Hlen; lia|].
    cbn [all_in] in Hs. apply andb_true_iff in Hs. destruct Hs as [Hc Hs].
    cbn [readline]. destruct (int_char_plain c Hc) as [_ [Hnl _]]. rewrite Hnl.
    rewrite IH; [reflexivity | exact Hs | simpl in Hlen; lia].
Qed.

Lemma readline_first_line (s rest : string) (size : nat) (e : ascii) :
  all_in int_chars s = true -> (String.length s < size)%nat ->
  e = newline \/ e = carriage_return ->
  readline size (s ++ String e rest) = s ++ String newline EmptyString.
Proof.
  intros Hs Hlen He.
  revert size Hlen; induction s as [|c s IH]; intros size Hlen.
  - destruct size as [|size]; [simpl in Hlen; lia|].
    destruct He as [-> | ->]; reflexivity.
  - destruct size as [|size]; [simpl in Hlen; lia|].
    cbn [all_in] in Hs. apply andb_true_iff in Hs. destruct Hs as [Hc Hs].
    cbn [String.append readline]. destruct (int_char_plain c Hc) as [_ [Hnl _]]. rewrite Hnl.
    rewrite IH; [reflexivity | exact Hs | simpl in Hlen; lia].
Qed.

Lemma rstrip_app_all_in (chars s t : string) :
  all_in chars t = true -> rstrip chars (s ++ t) = rstrip chars s.
Proof.
  intros Ht. induction s as [|c s IH].
  - simpl. apply rstrip_all_in; exact Ht.
  - change (String c s ++ t) with (String c (s ++ t)).
    rewrite !rstrip_cons, IH. reflexivity.
Qed.

Lemma ascii_int_line_end (s : string) :
  all_in int_chars s = true -> s <> EmptyString ->
  ascii_int (s ++ String newline EmptyString) = ascii_int s.
Proof.
  intros Hs Hne. unfold ascii_int.
  replace (strip whitespace (s ++ String newline EmptyString))
    with (strip whitespace s); [reflexivity|].
  unfold strip. rewrite (lstrip_plain s Hs).
  destruct s as [|c s]; [congruence|].
  cbn [all_in] in Hs. apply andb_true_iff in Hs. destruct Hs as [Hc _].
  change (String c s ++ String newline EmptyString)
    with (String c (s ++ String newline EmptyString)).
  cbn [lstrip]. rewrite (proj1 (int_char_plain c Hc)).
  change (String c (s ++ String newline EmptyString))
    with (String c s ++ String newline EmptyString).
  rewrite rstrip_app_all_in by reflexivity. reflexivity.
Qed.

Lemma format_d_nonempty (z : Z) : format_d z <> EmptyString.
Proof.
  destruct z as [|p|p].
  - discriminate.
  - rewrite (proj1 (format_d_pos p)).
    pose proof (DecimalPos.Unsigned.to_uint_nonnil p).
    destruct (Pos.to_uint p); [congruence | discriminate ..].
  - rewrite (proj2 (format_d_pos p)). discriminate.
Qed.

Lemma format_d_ascii (z : Z) : forall_chars is_ascii (format_d z) = true.
Proof.
  apply (all_in_forall_chars is_ascii int_chars); [reflexivity|].
  apply format_d_int_chars.
Qed.

Lemma forall_chars_append (p : ascii -> bool) (a b : string) :
  forall_chars p (a ++ b) = forall_chars p a && forall_chars p b.
Proof.
  induction a as [|c a IH]; cbn [String.append forall_chars]; [reflexivity|].
  rewrite IH, andb_assoc. reflexivity.
Qed.

Lemma readline_ascii (size : nat) (s : string) :
  forall_chars is_ascii s = true -> forall_chars is_ascii (readline size s) = true.
Proof.
  revert s; induction size as [|size IH]; intros s Hs; [reflexivity|].
  destruct s as [|c s]; [reflexivity|].
  cbn [forall_chars] in Hs. apply andb_true_iff in Hs. destruct Hs as [Hc Hs].
  cbn [readline].
  destruct (Ascii.eqb c newline || Ascii.eqb c carriage_return); [reflexivity|].
  cbn [forall_chars]. rewrite Hc, (IH s Hs). reflexivity.
Qed.

(** [int] of the decimal text of a number is the number. *)
Lemma py_int_format_d (py : python) (z : Z) : py_int py (format_d z) = Ok z.
Proof. unfold py_int. rewrite format_d_ascii. apply ascii_int_format_d. Qed.

Lemma load_after_save (py : python) (fs : filesystem) (filename : string) (st st' : OsmId.t) :
  - 10 ^ 19 < OsmId.element_id_counter st < 10 ^ 20 ->
  OsmId_load_id py filename (OsmId_save_id filename fs st) st'
    = Loaded (OsmId.mk (OsmId.element_id_counter st)
                       (OsmId.element_id_counter_incr st')).
Proof.
  intros Hz. unfold OsmId_load_id, OsmId_save_id.
  rewrite dict_get_setitem, String.eqb_refl, format_d_ascii.
  rewrite readline_plain.
  - rewrite py_int_format_d. reflexivity.
  - apply format_d_int_chars.
  - apply format_d_length; [lia | simpl Z.of_nat; simpl Z.sub; exact Hz].
Qed.

(** X12: [save_id] followed by [load_id] of the same file gives the
    counter back, into whatever counter state it is loaded, and [load_id]
    leaves the step of that state as it is; this holds for every counter
    between -10^19 and 10^20 (both excluded), whose text has at most the 20
    characters [load_id] reads. *)
Theorem save_then_load (py : python) (fs : filesystem) (filename : string)
    (st st' : OsmId.t) :
  - 10 ^ 19 < OsmId.element_id_counter st < 10 ^ 20 ->
  OsmId_load_id py filename (OsmId_save_id filename fs st) st'
    = Loaded (OsmId.mk (OsmId.element_id_counter st)
                       (OsmId.element_id_counter_incr st')).
Proof. apply load_after_save. Qed.

(** X12 at the counter -3 the three constructor calls of [ex_store] leave,
    saved to a file and loaded into the initial state. *)
Lemma save_then_load_witness :
  OsmId_load_id ex_python "ids.txt"
    (OsmId_save_id "ids.txt" [] (OsmId.mk (-3) (-1))) OsmId.initial
  = Loaded (OsmId.mk (-3) (-1)).
Proof.
  apply (save_then_load ex_python [] "ids.txt" (OsmId.mk (-3) (-1)) OsmId.initial).
  simpl. lia.
Defined.

(** Beyond that range the round trip is lost: of the 21 digits of 10^20
    [load_id] reads 20. *)
Example load_reads_twenty_characters :
  OsmId_load_id ex_python "ids.txt"
    (OsmId_save_id "ids.txt" [] (OsmId.mk (10 ^ 20) 1)) OsmId.initial
  = Loaded (OsmId.mk (10 ^ 19) (-1)).
Proof. vm_compute. reflexivity. Qed.

(** X13: [load_id] reads the first line of the file only.  When the file
    starts with the decimal text of a number between -10^18 and 10^19 (both
    excluded) followed by a line end, a line feed or a carriage return, the
    counter becomes that number whatever ASCII text follows the line end, and
    the step stays as it is. *)
Theorem load_reads_first_line (py : python) (fs : filesystem)
    (filename rest : string) (z : Z) (e : ascii) (st : OsmId.t) :
  - 10 ^ 18 < z < 10 ^ 19 ->
  e = newline \/ e = carriage_return ->
  forall_chars is_ascii rest = true ->
  dict_get fs filename = Some (format_d z ++ String e rest) ->
  OsmId_load_id py filename fs st
    = Loaded (OsmId.mk z (OsmId.element_id_counter_incr st)).
Proof.
  intros Hz He Hrest Hget. unfold OsmId_load_id. rewrite Hget.
  assert (Hascii : forall_chars is_ascii (format_d z ++ String e rest) = true).
  { rewrite forall_chars_append, format_d_ascii. cbn [forall_chars andb].
    rewrite Hrest. destruct He as [-> | ->]; reflexivity. }
  rewrite Hascii.
  rewrite (readline_first_line (format_d z) rest 20 e).
  - unfold py_int. rewrite forall_chars_append, format_d_ascii.
    cbn [forall_chars andb]. change (is_ascii newline) with true. cbn [andb].
    rewrite ascii_int_line_end, ascii_int_format_d;
      [reflexivity | apply format_d_int_chars | apply format_d_nonempty].
  - apply format_d_int_chars.
  - assert (H : (String.length (format_d z) <= 19)%nat).
    { apply format_d_length; [lia | simpl Z.of_nat; simpl Z.sub; exact Hz]. }
    lia.
  - exact He.
Qed.

(** X13 at a file with the line 42 and a second line of other text. *)
Lemma load_reads_first_line_witness :
  OsmId_load_id ex_python "ids.txt"
    [("ids.txt", format_d 42 ++ String newline "not a number")] OsmId.initial
  = Loaded (OsmId.mk 42 (-1)).
Proof.
  apply (load_reads_first_line ex_python _ "ids.txt" "not a number" 42 newline
           OsmId.initial).
  - simpl. lia.
  - left; reflexivity.
  - reflexivity.
  - reflexivity.
Defined.

(** X14: a run that saved its counter can be resumed.  When a run
    constructs objects, saves the counter with [save_id], and a later run with
    the same step loads it with [load_id] and constructs more, the ids of the
    two runs are all different; the saved counter has to lie between -10^19
    and 10^20. *)
Theorem resumed_run_ids (py : python) (fs : filesystem) (filename : string)
    (st st2 : OsmId.t) (cs1 cs2 : list ctor) :
  let st1 := snd (construct_all cs1 st) in
  OsmId.element_id_counter_incr st <> 0 ->
  OsmId.element_id_counter_incr st2 = OsmId.element_id_counter_incr st ->
  - 10 ^ 19 < OsmId.element_id_counter st1 < 10 ^ 20 ->
  exists st2',
    OsmId_load_id py filename (OsmId_save_id filename fs st1) st2 = Loaded st2'
    /\ NoDup (constructed_ids cs1 st ++ constructed_ids cs2 st2').
Proof.
  intros st1 Hstep Hsame Hrange.
  eexists. split; [apply load_after_save; exact Hrange|].
  rewrite Hsame. unfold st1. destruct st as [start step].
  rewrite construct_all_state. simpl in *.
  apply continued_ids_NoDup; exact Hstep.
Qed.

(** X14 at a first run of two constructor calls from the initial state
    and a second run of one. *)
Lemma resumed_run_ids_witness :
  exists st2',
    OsmId_load_id ex_python "ids.txt"
      (OsmId_save_id "ids.txt" []
         (snd (construct_all [NewWay []; NewRelation []] OsmId.initial)))
      OsmId.initial = Loaded st2'
    /\ NoDup (constructed_ids [NewWay []; NewRelation []] OsmId.initial
              ++ constructed_ids [NewWay []] st2').
Proof.
  apply (resumed_run_ids ex_python [] "ids.txt" OsmId.initial OsmId.initial
           [NewWay []; NewRelation []] [NewWay []]).
  - discriminate.
  - reflexivity.
  - simpl. lia.
Defined.

(** A later run that counts in the other direction meets the ids of the
    earlier one again. *)
Example resumed_run_other_direction :
  constructed_ids [NewWay []; NewWay []] OsmId.initial = [-1; -2]
  /\ OsmId_load_id ex_python "ids.txt"
       (OsmId_save_id "ids.txt" []
          (snd (construct_all [NewWay []; NewWay []] OsmId.initial)))
       (OsmId.mk 0 1) = Loaded (OsmId.mk (-2) 1)
  /\ constructed_ids [NewWay []] (OsmId.mk (-2) 1) = [-1].
Proof. repeat split; vm_compute; reflexivity. Qed.

(** ** A counter file that does not hold a number *)

Lemma char_in_append (c : ascii) (a b : string) :
  char_in c (a ++ b) = char_in c a || char_in c b.
Proof.
  induction a as [|x a IH]; simpl; [reflexivity|].
  rewrite IH, orb_assoc. reflexivity.
Qed.

Lemma occurs_lstrip (chars s : string) (c : ascii) :
  char_in c chars = false -> occurs c s = true -> occurs c (lstrip chars s) = true.
Proof.
  intros Hc. induction s as [|d s IH]; cbn [occurs lstrip]; [discriminate|].
  intros H. destruct (char_in d chars) eqn:Hd.
  - apply IH. destruct (Ascii.eqb_spec c d) as [->|_]; [congruence | exact H].
  - exact H.
Qed.

Lemma occurs_rstrip (chars s : string) (c : ascii) :
  char_in c chars = false -> occurs c s = true -> occurs c (rstrip chars s) = true.
Proof.
  intros Hc. induction s as [|d s IH]; [discriminate|].
  cbn [occurs]. rewrite rstrip_cons. intros H.
  destruct (Ascii.eqb_spec c d) as [<-|Hne].
  - destruct (rstrip chars s); [rewrite Hc|]; cbn [occurs];
      rewrite Ascii.eqb_refl; reflexivity.
  - simpl in H. specialize (IH H).
    destruct (rstrip chars s) as [|y t]; [discriminate IH|].
    cbn [occurs] in *. rewrite IH. apply orb_true_r.
Qed.

Lemma occurs_drop_underscores (s : string) (c : ascii) (after_digit : bool) :
  Ascii.eqb c "_"%char = false -> occurs c s = true ->
  match drop_underscores after_digit s with
  | Some ds => occurs c ds = true
  | None => True
  end.
Proof.
  intros Hu. revert after_digit; induction s as [|d s IH]; intros after_digit;
    [discriminate|].
  cbn [occurs drop_underscores]. intros H.
  destruct (Ascii.eqb_spec d "_"%char) as [->|Hd].
  - rewrite Hu in H. simpl in H.
    destruct s as [|e s']; [exact I|].
    destruct (after_digit && char_in e digits); [|exact I].
    apply IH; exact H.
  - specialize (IH (char_in d digits)).
    destruct (drop_underscores (char_in d digits) s) as [ds|]; [|exact I].
    cbn [option_map occurs].
    destruct (Ascii.eqb c d); [reflexivity|]. apply IH; exact H.
Qed.

Lemma uint_of_string_non_digit (s : string) (c : ascii) :
  char_in c digits = false -> occurs c s = true ->
  NilEmpty.uint_of_string s = None.
Proof.
  intros Hc. induction s as [|d s IH]; [discriminate|].
  cbn [occurs NilEmpty.uint_of_string]. intros H.
  destruct (NilEmpty.uint_of_string s) as [u|] eqn:Hu; [|reflexivity].
  destruct (Ascii.eqb_spec c d) as [<-|_]; [|discriminate (IH H)].
  destruct (uint_of_char c (Some u)) as [u'|] eqn:Hch; [|reflexivity].
  apply uint_of_char_spec in Hch.
  repeat (destruct Hch as [[-> _]|Hch]; [discriminate Hc|]).
  destruct Hch as [-> _]. discriminate Hc.
Qed.

(** [int] rejects every text that has a character other than digits,
    underscore, signs and white space. *)
Lemma ascii_int_bad_char (s : string) (c : ascii) :
  char_in c int_literal_chars = false -> occurs c s = true ->
  ascii_int s = Raise ValueError.
Proof.
  unfold int_literal_chars. rewrite !char_in_append.
  intros Hc Hocc.
  apply orb_false_iff in Hc. destruct Hc as [Hdig Hc].
  apply orb_false_iff in Hc. destruct Hc as [Hsign Hws].
  assert (Hu : Ascii.eqb c "_"%char = false)
    by (simpl in Hsign; destruct (Ascii.eqb c "_"%char); [discriminate | reflexivity]).
  assert (Hp : Ascii.eqb c "+"%char = false).
  { simpl in Hsign. destruct (Ascii.eqb c "+"%char); [|reflexivity].
    rewrite orb_true_r in Hsign. discriminate. }
  assert (Hm : Ascii.eqb c "-"%char = false).
  { simpl in Hsign. destruct (Ascii.eqb c "-"%char); [|reflexivity].
    rewrite !orb_true_r in Hsign. discriminate. }
  assert (Ht : occurs c (strip whitespace s) = true)
    by (apply occurs_rstrip, occurs_lstrip; assumption).
  unfold ascii_int.
  assert (Hbody : forall (negative : bool) (body : string),
            occurs c body = true ->
            match drop_underscores false body with
            | Some ds =>
                match NilEmpty.uint_of_string ds with
                | Some Decimal.Nil => Raise ValueError
                | Some u => Ok (if negative then - Z.of_uint u else Z.of_uint u)
                | None => Raise ValueError
                end
            | None => Raise ValueError
            end = Raise ValueError).
  { intros negative body Hb.
    pose proof (occurs_drop_underscores body c false Hu Hb) as Hd.
    destruct (drop_underscores false body) as [ds|]; [|reflexivity].
    rewrite (uint_of_string_non_digit ds c Hdig Hd). reflexivity. }
  destruct (strip whitespace s) as [|d r]; [discriminate Ht|].
  cbn [occurs] in Ht.
  destruct (Ascii.eqb_spec d "-"%char) as [->|_].
  - apply (Hbody true). rewrite Hm in Ht. exact Ht.
  - destruct (Ascii.eqb_spec d "+"%char) as [->|_].
    + apply (Hbody false). rewrite Hp in Ht. exact Ht.
    + apply (Hbody false (String d r)). exact Ht.
Qed.

(** X15: [load_id] raises [ValueError] when there is, in the up to 20
    characters of the first line that it reads from an ASCII file, a character
    that is neither a digit nor an underscore, a sign or white space; a letter
    or a decimal point for example. *)
Theorem load_rejects_other_text (py : python) (fs : filesystem)
    (filename contents : string) (c : ascii) (st : OsmId.t) :
  dict_get fs filename = Some contents ->
  forall_chars is_ascii contents = true ->
  occurs c (readline 20 contents) = true ->
  char_in c int_literal_chars = false ->
  OsmId_load_id py filename fs st = LoadRaises ValueError.
Proof.
  intros Hget Hascii Hocc Hc. unfold OsmId_load_id, py_int.
  rewrite Hget, Hascii, (readline_ascii 20 contents Hascii).
  rewrite (ascii_int_bad_char _ c Hc Hocc). reflexivity.
Qed.

(** X15 at a file that holds 12.5. *)
Lemma load_rejects_other_text_witness :
  OsmId_load_id ex_python "ids.txt" [("ids.txt", "12.5")] OsmId.initial
  = LoadRaises ValueError.
Proof.
  apply (load_rejects_other_text ex_python _ "ids.txt" "12.5" "."%char OsmId.initial);
    reflexivity.
Defined.


(** ** The element of a point *)


